(** * Reaction-diffusion simulator (simulator.ts): a shallow embedding

    The simulator evolves a two-channel field (concentrations A and B of the
    Gray-Scott model) by running fragment shaders over a pair of float
    textures.  The embedding follows the TypeScript source:

    - numbers are exact rationals ([Q]); a GLSL [float], a texel channel and
      a [Float32Array] element are all read as the rational they denote, so
      every statement below is about the arithmetic the shaders describe and
      not about rounding;
    - a texture is a record with its shape, its filter, its wrap mode and its
      texels in row-major order; [texture2D] is the sampler of GLSL ES with
      nearest or bilinear filtering and clamp or repeat addressing;
    - a render pass evaluates a fragment program at the centre of every pixel
      of the target;
    - the closure variables of [makeReactionDiffusionDiagram] are the fields
      of [Session]; its inner functions are state transformers that may
      throw, and a throw keeps the mutations made before it;
    - the effects that leave the session (console warnings, calls of the
      parameter source, render passes) are recorded in a log, newest first. *)

From Stdlib Require Import ZArith QArith Qround String List Bool Lia Lqa.
From Stdlib Require Import Setoid Morphisms.
Import ListNotations.

Local Open Scope Z_scope.

(** ** GLSL values and the texture sampler *)

Module GLSL.

Record vec2 : Type := Vec2 { x2 : Q; y2 : Q }.
Record vec4 : Type := Vec4 { vx : Q; vy : Q; vz : Q; vw : Q }.

Definition xy (v : vec4) : vec2 := Vec2 (vx v) (vy v).

Definition add2 (a b : vec2) : vec2 := Vec2 (x2 a + x2 b) (y2 a + y2 b).
Definition sub2 (a b : vec2) : vec2 := Vec2 (x2 a - x2 b) (y2 a - y2 b).
Definition scale2 (k : Q) (a : vec2) : vec2 := Vec2 (k * x2 a) (k * y2 a).

Declare Scope vec2_scope.
Delimit Scope vec2_scope with v2.
Bind Scope vec2_scope with vec2.
Infix "+" := add2 : vec2_scope.
Infix "-" := sub2 : vec2_scope.
Infix "*" := scale2 : vec2_scope.

(** Component-wise equality of the rationals held by a vector. *)
Definition eq2 (a b : vec2) : Prop := (x2 a == x2 b)%Q /\ (y2 a == y2 b)%Q.
Definition eq4 (a b : vec4) : Prop :=
  (vx a == vx b)%Q /\ (vy a == vy b)%Q /\ (vz a == vz b)%Q /\ (vw a == vw b)%Q.

(** [mix(x, y, a)] of GLSL: the linear blend [x * (1 - a) + y * a]. *)
Definition mix (x y a : Q) : Q := (x * (1 - a) + y * a)%Q.
Definition mix4 (u v : vec4) (a : Q) : vec4 :=
  Vec4 (mix (vx u) (vx v) a) (mix (vy u) (vy v) a)
       (mix (vz u) (vz v) a) (mix (vw u) (vw v) a).

Definition zero4 : vec4 := Vec4 0 0 0 0.

Inductive Filter : Type := nearest | linear.
Inductive WrapMode : Type := wrap_clamp | wrap_repeat.

Record Texture : Type := {
  width : Z;
  height : Z;
  filter : Filter;     (* min and mag filter; the source always sets both alike *)
  wrap : WrapMode;
  texels : list vec4   (* row-major, [width] texels per row *)
}.

(** Texel (i, j) of the stored image; a texel outside the stored data reads
    as zero, as an unwritten texel of a WebGL texture does. *)
Definition texel (t : Texture) (i j : Z) : vec4 :=
  nth (Z.to_nat (j * width t + i)) (texels t) zero4.

Definition wrap_coord (m : WrapMode) (n i : Z) : Z :=
  match m with
  | wrap_repeat => i mod n
  | wrap_clamp => Z.max 0 (Z.min (n - 1) i)
  end.

(** [texture2D(sampler, uv)]: [uv] is in normalised coordinates, texel
    (i, j) has its centre at ((i + 1/2) / width, (j + 1/2) / height). *)
Definition texture2D (t : Texture) (uv : vec2) : vec4 :=
  let w := inject_Z (width t) in
  let h := inject_Z (height t) in
  match filter t with
  | nearest =>
      texel t (wrap_coord (wrap t) (width t) (Qfloor (x2 uv * w)))
              (wrap_coord (wrap t) (height t) (Qfloor (y2 uv * h)))
  | linear =>
      let fx := (x2 uv * w - (1 # 2))%Q in
      let fy := (y2 uv * h - (1 # 2))%Q in
      let i0 := Qfloor fx in
      let j0 := Qfloor fy in
      let a := (fx - inject_Z i0)%Q in
      let b := (fy - inject_Z j0)%Q in
      let wi := wrap_coord (wrap t) (width t) in
      let wj := wrap_coord (wrap t) (height t) in
      let t00 := texel t (wi i0) (wj j0) in
      let t10 := texel t (wi (i0 + 1)) (wj j0) in
      let t01 := texel t (wi i0) (wj (j0 + 1)) in
      let t11 := texel t (wi (i0 + 1)) (wj (j0 + 1)) in
      mix4 (mix4 t00 t10 a) (mix4 t01 t11 a) b
  end.

(** [v_uv] at the centre of pixel (i, j) of a [w] x [h] render target: the
    vertex shader of [makeShaderProgram] maps the clip-space triangle so that
    [v_uv] runs from 0 to 1 across the target. *)
Definition v_uv (w h i j : Z) : vec2 :=
  Vec2 ((inject_Z i + (1 # 2)) / inject_Z w)%Q
       ((inject_Z j + (1 # 2)) / inject_Z h)%Q.

(** One render pass: the fragment program run at every pixel of a target
    of shape [w] x [h], in row-major order. *)
Definition render (w h : Z) (frag : vec2 -> vec4) : list vec4 :=
  map (fun k : nat => frag (v_uv w h (Z.of_nat k mod w) (Z.of_nat k / w)))
      (seq 0 (Z.to_nat (w * h))).

End GLSL.

(** ** The JavaScript values the simulator handles *)

Module JS.

Inductive Error : Type :=
| RangeError                       (* typed-array length or offset out of range *)
| InvalidTextureShape              (* the backend refused a texture shape *)
| InvalidUniform (name : string).  (* a sampler uniform that is not a texture *)

Inductive Result (A : Type) : Type :=
| Ok (a : A)
| Throw (e : Error).
Arguments Ok {A} a.
Arguments Throw {A} e.

Definition bindR {A B : Type} (c : Result A) (k : A -> Result B) : Result B :=
  match c with
  | Ok a => k a
  | Throw e => Throw e
  end.

(** [a[k]] on an array: [undefined] outside the array. *)
Definition index {A : Type} (a : list A) (k : Z) : option A :=
  if k <? 0 then None else nth_error a (Z.to_nat k).

(** [a[k] = v] restricted to an existing element. *)
Fixpoint update {A : Type} (a : list A) (k : nat) (v : A) : list A :=
  match a, k with
  | [], _ => []
  | _ :: rest, O => v :: rest
  | h :: rest, S k' => h :: update rest k' v
  end.

(** [new Float32Array(n)]: [n] zeros; a negative length is a RangeError. *)
Definition Float32Array_new (n : Z) : Result (list Q) :=
  if n <? 0 then Throw RangeError else Ok (repeat 0%Q (Z.to_nat n)).

(** A begin or end argument of [subarray], relative to the end when
    negative and clamped into the array. *)
Definition relative_index (len k : Z) : Z :=
  if k <? 0 then Z.max (len + k) 0 else Z.min k len.

Definition subarray (a : list Q) (begin_ end_ : Z) : list Q :=
  let len := Z.of_nat (length a) in
  let b := relative_index len begin_ in
  let e := relative_index len end_ in
  firstn (Z.to_nat (e - b)) (skipn (Z.to_nat b) a).

(** [target.set(source)]: copies [source] over the start of [target]; a
    source longer than the target is a RangeError. *)
Definition set (target source : list Q) : Result (list Q) :=
  if (length target <? length source)%nat then Throw RangeError
  else Ok (source ++ skipn (length source) target).

(** The 2D canvas that holds the seed bitmap: 8-bit RGBA pixels. *)
Record Pixel : Type := RGBA { red : Z; green : Z; blue : Z; alpha : Z }.

Record Canvas : Type := {
  canvas_width : Z;
  canvas_height : Z;
  pixels : list Pixel
}.

Definition black : Pixel := RGBA 0 0 0 255.

(** [createElement("canvas")], the size set, then [fillRect] in black over
    the whole surface. *)
Definition black_canvas (w h : Z) : Canvas :=
  {| canvas_width := w; canvas_height := h;
     pixels := repeat black (Z.to_nat (w * h)) |}.

End JS.

(** ** regl: textures, uniforms and the shader programs of the simulator *)

Module Regl.
Import GLSL JS.

(** What the graphics backend decides and the source does not: which
    texture shapes it is able to allocate.  The decision is abstracted to
    a predicate on the shape; what else regl looks at (the wrap mode on
    sides that are not powers of two, whether data is given) is not
    modelled. *)
Record Backend : Type := { shape_ok : Z -> Z -> bool }.

(** [regl.texture({...})] with explicit content. *)
Definition texture (regl : Backend) (w h : Z) (f : Filter) (wr : WrapMode)
    (content : list vec4) : Result Texture :=
  if shape_ok regl w h
  then Ok {| width := w; height := h; filter := f; wrap := wr;
             texels := content |}
  else Throw InvalidTextureShape.

(** A one-channel float value is sampled as (L, L, L, 1). *)
Definition luminance (v : Q) : vec4 := Vec4 v v v 1.

(** An 8-bit canvas pixel is sampled as its channels over 255. *)
Definition texel_of_pixel (p : Pixel) : vec4 :=
  Vec4 (inject_Z (red p) / 255) (inject_Z (green p) / 255)
       (inject_Z (blue p) / 255) (inject_Z (alpha p) / 255).

(** [regl.texture({ data: canvas })]: default filter and wrap mode. *)
Definition texture_of_canvas (regl : Backend) (c : Canvas) : Result Texture :=
  texture regl (canvas_width c) (canvas_height c) nearest wrap_clamp
          (map texel_of_pixel (pixels c)).

(** The value handed to a [sampler2D] uniform. *)
Inductive UniformValue : Type :=
| UTexture (t : Texture)
| UObject (fields : list (string * Q))   (* a plain object, e.g. { min: 0, max: 0 } *)
| UUndefined.

(** Binding a sampler: only a texture can be bound. *)
Definition sampler (name : string) (v : UniformValue) : Result Texture :=
  match v with
  | UTexture t => Ok t
  | _ => Throw (InvalidUniform name)
  end.

(** A shader program applied to its props: the uniforms are bound (which
    may throw) and the fragment program is ready to be drawn. *)
Definition Command : Type := Result (vec2 -> vec4).

(** [paint_from_bitmap]: blends the new bitmap over the old buffer with the
    bitmap's alpha as weight. *)
Definition paint_from_bitmap (u_old u_new : UniformValue) : Command :=
  bindR (sampler "u_old" u_old) (fun old_t =>
  bindR (sampler "u_new" u_new) (fun new_t =>
  Ok (fun v_uv : vec2 =>
        let old := texture2D old_t v_uv in
        let new_texel := texture2D new_t v_uv in
        mix4 old new_texel (vw new_texel)))).

Definition weight_cardinal : Q := 0.2.
Definition weight_diagonal : Q := 0.05.

Definition diffusion (u_texture : Texture) (pos : vec2) (step : Q) : vec2 :=
  let dx := Vec2 step 0 in
  let dy := Vec2 0 step in
  let w := xy (texture2D u_texture (pos - dx)) in
  let e := xy (texture2D u_texture (pos + dx)) in
  let s := xy (texture2D u_texture (pos - dy)) in
  let n := xy (texture2D u_texture (pos + dy)) in
  let sw := xy (texture2D u_texture (pos - dx - dy)) in
  let se := xy (texture2D u_texture (pos + dx - dy)) in
  let nw := xy (texture2D u_texture (pos - dx + dy)) in
  let ne := xy (texture2D u_texture (pos + dx + dy)) in
  (weight_cardinal * (w + e + s + n)
   + weight_diagonal * (sw + se + nw + ne))%v2.

(** [main] of the reaction-diffusion fragment shader. *)
Definition karlsims_main (u_texture : Texture)
    (diffusion_step diffusion_rate resolution dt feed kill : Q)
    (feed_mask : Texture) (v_uv : vec2) : vec4 :=
  let center := xy (texture2D u_texture v_uv) in
  let blur := (diffusion u_texture v_uv (diffusion_step / resolution)
               - center)%v2 in
  let A := x2 center in
  let B := y2 center in
  let reaction := (A * B * B)%Q in
  let local_feed := (feed * vx (texture2D feed_mask v_uv))%Q in
  let diff :=
    (dt * Vec2 (diffusion_rate * x2 blur - reaction + local_feed * (1 - A))
               (diffusion_rate * 0.5 * y2 blur + reaction
                - (kill + local_feed) * B))%v2 in
  let out := (center + diff)%v2 in
  Vec4 (x2 out) (y2 out) 0 0.

Definition karlsims_reactiondiffusion (u_texture : UniformValue)
    (diffusion_step diffusion_rate resolution dt feed kill : Q)
    (feed_mask : UniformValue) : Command :=
  bindR (sampler "u_texture" u_texture) (fun tex =>
  bindR (sampler "feed_mask" feed_mask) (fun mask =>
  Ok (karlsims_main tex diffusion_step diffusion_rate resolution dt
                    feed kill mask))).

End Regl.

(** ** The simulator: [makeReactionDiffusionDiagram] and its inner functions *)

(** The configuration object ([interface DiagramParam]). *)
Module DiagramParam.
Record t : Type := {
  size : Z;
  iterations_per_tick : Z;
  initial_bitmap : JS.Canvas -> JS.Canvas;  (* paints the seed on the canvas *)
  colorize_glsl : string;
  feed_mask : option (list Q)
}.
End DiagramParam.

(** The object the parameter source returns for a tick: the five fields
    the caller supplies.  It is spread into the props of the step after
    [u_texture], [resolution] and [dt], none of which it names, and before
    [feed_mask]. *)
Module Uniforms.
Record t : Type := {
  diffusion_rate : Q;
  diffusion_step : Q;
  feed : Q;
  kill : Q;
  reset : bool
}.
End Uniforms.

Module Simulator.
Import GLSL JS Regl.

Inductive PassKind : Type := PaintPass | StencilPass | DrawPass.

(** What a call leaves outside the session. *)
Inductive Effect : Type :=
| ConsoleWarn (expected got : Z)   (* the warning of updateFeedMask *)
| CallUniforms (tick : Z)          (* uniforms(context.tick) *)
| RenderPass (kind : PassKind) (reads : list Z) (target : option Z).
    (* the buffers sampled and the buffer drawn into, [None] for the screen *)

(** The variables closed over by the inner functions. *)
Record Session : Type := {
  params : DiagramParam.t;
  uniforms : Z -> Uniforms.t;
  feedMaskTexture : option Texture;
  buffer_textures : list Texture;   (* buffer_fbos[k] draws into buffer_textures[k] *)
  source_bitmap : Canvas;
  currentOutputIn : Z;
  log : list Effect                 (* newest first *)
}.

Definition with_feedMaskTexture (v : option Texture) (s : Session) : Session :=
  {| params := params s; uniforms := uniforms s; feedMaskTexture := v;
     buffer_textures := buffer_textures s; source_bitmap := source_bitmap s;
     currentOutputIn := currentOutputIn s; log := log s |}.

Definition with_buffer_textures (v : list Texture) (s : Session) : Session :=
  {| params := params s; uniforms := uniforms s;
     feedMaskTexture := feedMaskTexture s;
     buffer_textures := v; source_bitmap := source_bitmap s;
     currentOutputIn := currentOutputIn s; log := log s |}.

Definition with_source_bitmap (v : Canvas) (s : Session) : Session :=
  {| params := params s; uniforms := uniforms s;
     feedMaskTexture := feedMaskTexture s;
     buffer_textures := buffer_textures s; source_bitmap := v;
     currentOutputIn := currentOutputIn s; log := log s |}.

Definition with_currentOutputIn (v : Z) (s : Session) : Session :=
  {| params := params s; uniforms := uniforms s;
     feedMaskTexture := feedMaskTexture s;
     buffer_textures := buffer_textures s; source_bitmap := source_bitmap s;
     currentOutputIn := v; log := log s |}.

Definition emit (e : Effect) (s : Session) : Session :=
  {| params := params s; uniforms := uniforms s;
     feedMaskTexture := feedMaskTexture s;
     buffer_textures := buffer_textures s; source_bitmap := source_bitmap s;
     currentOutputIn := currentOutputIn s; log := e :: log s |}.

(** A function of the closure: it transforms the session and returns or
    throws; the session it leaves is kept in both cases. *)
Definition M (A : Type) : Type := Session -> Session * Result A.

Definition ret {A : Type} (a : A) : M A := fun s => (s, Ok a).
Definition bind {A B : Type} (c : M A) (k : A -> M B) : M B :=
  fun s =>
    match c s with
    | (s', Ok a) => k a s'
    | (s', Throw e) => (s', Throw e)
    end.
Definition lift {A : Type} (r : Result A) : M A := fun s => (s, r).
Definition modify (f : Session -> Session) : M unit := fun s => (f s, Ok tt).

Declare Scope sim_scope.
Delimit Scope sim_scope with sim.
Notation "x <- c ;; k" := (bind c (fun x => k))
  (at level 61, c at next level, right associativity) : sim_scope.
Notation "c ;; k" := (bind c (fun _ => k))
  (at level 61, right associativity) : sim_scope.
Local Open Scope sim_scope.

(** [for (let iterate = 0; iterate < n; iterate++) body]. *)
Fixpoint repeat_times (n : nat) (body : M unit) : M unit :=
  match n with
  | O => ret tt
  | S n' => body ;; repeat_times n' body
  end.

(** [buffer_textures[k]] as a uniform value. *)
Definition buffer_texture (s : Session) (k : Z) : UniformValue :=
  match index (buffer_textures s) k with
  | Some t => UTexture t
  | None => UUndefined
  end.

(** [regl({ framebuffer: buffer_fbos[k] })(() => command)]: the command
    draws into buffer [k]; with no such framebuffer the draw lands on the
    screen and no buffer changes. *)
Definition draw_into (kind : PassKind) (k : Z) (reads : list Z)
    (command : Command) : M unit :=
  frag <- lift command ;;
  modify (fun s =>
    match index (buffer_textures s) k with
    | Some t =>
        let t' := {| width := width t; height := height t;
                     filter := filter t; wrap := wrap t;
                     texels := render (width t) (height t) frag |} in
        emit (RenderPass kind reads (Some k))
             (with_buffer_textures
                (update (buffer_textures s) (Z.to_nat k) t') s)
    | None => emit (RenderPass kind reads None) s
    end).

Section WithBackend.

Variable regl : Backend.

(** [reset()]: the seed bitmap is drawn into the current buffer, blended
    over the content of the other buffer. *)
Definition reset : M unit :=
  fun s =>
    (source_texture <- lift (texture_of_canvas regl (source_bitmap s)) ;;
     draw_into PaintPass (currentOutputIn s) [1 - currentOutputIn s]
       (paint_from_bitmap (buffer_texture s (1 - currentOutputIn s))
                          (UTexture source_texture))) s.

(** [run(fn)]: one simulation step into the other buffer, then the swap. *)
Definition run (fn : UniformValue -> Command) : M unit :=
  fun s =>
    let nextOutputIn := 1 - currentOutputIn s in
    (draw_into StencilPass nextOutputIn [currentOutputIn s]
       (fn (buffer_texture s (currentOutputIn s))) ;;
     modify (with_currentOutputIn nextOutputIn)) s.

(** The value bound to the [feed_mask] uniform:
    [feedMaskTexture || { min: 0, max: 0 }]. *)
Definition feed_mask_uniform (s : Session) : UniformValue :=
  match feedMaskTexture s with
  | Some t => UTexture t
  | None => UObject [("min"%string, 0%Q); ("max"%string, 0%Q)]
  end.

(** The step that [run] is given in the frame loop. *)
Definition step_command (s : Session) (u : Uniforms.t)
    (u_texture : UniformValue) : Command :=
  karlsims_reactiondiffusion u_texture
    (Uniforms.diffusion_step u) (Uniforms.diffusion_rate u)
    (inject_Z (DiagramParam.size (params s))) 1.0
    (Uniforms.feed u) (Uniforms.kill u)
    (feed_mask_uniform s).

(** The body of the loop of the frame callback. *)
Definition iteration (tick : Z) : M unit :=
  u <- (fun s => (emit (CallUniforms tick) s, Ok (uniforms s tick))) ;;
  (if Uniforms.reset u then reset else ret tt) ;;
  (fun s => run (step_command s u) s).

(** [draw({ u_old: ..., u_new: ... })] onto the screen. *)
Definition draw : M unit :=
  fun s =>
    (lift (sampler "u_old" (buffer_texture s (currentOutputIn s))) ;;
     lift (sampler "u_new" (buffer_texture s (1 - currentOutputIn s))) ;;
     modify (emit (RenderPass DrawPass
                     [currentOutputIn s; 1 - currentOutputIn s] None))) s.

(** What the frame callback reads from the host. *)
Record Context : Type := {
  tick : Z;
  dataset_visible : option string;   (* canvas.dataset.visible *)
  visibilityState : string           (* document.visibilityState *)
}.

Definition hidden (context : Context) : bool :=
  match dataset_visible context with
  | Some v => String.eqb v "hidden"
  | None => false
  end || String.eqb (visibilityState context) "hidden".

(** The callback given to [regl.frame]. *)
Definition frame (context : Context) : M unit :=
  fun s =>
    if hidden context then (s, Ok tt)
    else
      (repeat_times
         (Z.to_nat (DiagramParam.iterations_per_tick (params s)))
         (iteration (tick context)) ;;
       draw) s.

(** The first half of [updateFeedMask]: the array that is installed. *)
Definition normalize_mask (newFeedMask : list Q) : M (list Q) :=
  fun s =>
    let expectedLength :=
      DiagramParam.size (params s) * DiagramParam.size (params s) in
    if Z.of_nat (length newFeedMask) =? expectedLength
    then (s, Ok newFeedMask)
    else
      (modify (emit (ConsoleWarn expectedLength
                       (Z.of_nat (length newFeedMask)))) ;;
       fixed <- lift (Float32Array_new expectedLength) ;;
       lift (JS.set fixed (subarray newFeedMask 0 expectedLength))) s.

(** The second half: the texture is re-specified, when there is one. *)
Definition install_mask (newFeedMask : list Q) : M unit :=
  fun s =>
    match feedMaskTexture s with
    | Some _ =>
        (t <- lift (texture regl (DiagramParam.size (params s))
                      (DiagramParam.size (params s)) nearest wrap_clamp
                      (map luminance newFeedMask)) ;;
         modify (with_feedMaskTexture (Some t))) s
    | None => (s, Ok tt)
    end.

Definition updateFeedMask (newFeedMask : list Q) : M unit :=
  fixed <- normalize_mask newFeedMask ;;
  install_mask fixed.

(** [reloadInitialBitmap()]: the canvas is cleared to black and painted
    again; the transform set around the painter only affects path drawing
    and is left out. *)
Definition reloadInitialBitmap : M unit :=
  modify (fun s =>
    with_source_bitmap
      (DiagramParam.initial_bitmap (params s)
         (black_canvas (DiagramParam.size (params s))
                       (DiagramParam.size (params s)))) s).

(** The body of [makeReactionDiffusionDiagram] up to the first [reset()];
    the frame callback and the three returned functions are the definitions
    above. *)
Definition makeReactionDiffusionDiagram (p : DiagramParam.t)
    (u : Z -> Uniforms.t) : Result Session :=
  let size := DiagramParam.size p in
  bindR (match DiagramParam.feed_mask p with
         | Some mask =>
             bindR (texture regl size size nearest wrap_clamp
                      (map luminance mask))
                   (fun t => Ok (Some t))
         | None => Ok None
         end) (fun mask_texture =>
  let blank := repeat zero4 (Z.to_nat (size * size)) in
  bindR (texture regl size size linear wrap_repeat blank) (fun b0 =>
  bindR (texture regl size size linear wrap_repeat blank) (fun b1 =>
  let s0 :=
    {| params := p; uniforms := u; feedMaskTexture := mask_texture;
       buffer_textures := [b0; b1];
       source_bitmap :=
         DiagramParam.initial_bitmap p (black_canvas size size);
       currentOutputIn := 0; log := [] |} in
  match reset s0 with
  | (s1, Ok _) => Ok s1
  | (_, Throw e) => Throw e
  end))).

(** The sessions a host can observe: the one the constructor returns and
    those left by any call of the returned functions or of the frame
    callback, whether the call returned or threw. *)
Inductive reachable : Session -> Prop :=
| reach_make : forall p u s,
    makeReactionDiffusionDiagram p u = Ok s -> reachable s
| reach_reset : forall s, reachable s -> reachable (fst (reset s))
| reach_frame : forall s context,
    reachable s -> reachable (fst (frame context s))
| reach_updateFeedMask : forall s mask,
    reachable s -> reachable (fst (updateFeedMask mask s))
| reach_reloadInitialBitmap : forall s,
    reachable s -> reachable (fst (reloadInitialBitmap s)).

End WithBackend.

End Simulator.

(** ** The caller (main.ts): the seed painter and the parameter source *)

Module Main.
Import JS.

(** [Math.max(0, Math.min(1, value))]. *)
Definition clamp01 (value : Q) : Q :=
  let m := if Qle_bool 1 value then 1%Q else value in
  if Qle_bool m 0 then 0%Q else m.

(** One pixel of the seed image: the clamped value scaled to a byte, the
    same in the three colour channels, fully opaque. *)
Definition gray (value : Q) : Pixel :=
  let brightness := Qfloor (255 * clamp01 value) in
  RGBA brightness brightness brightness 255.

(** [ctx.createImageData(IMAGE_SIZE, IMAGE_SIZE)] filled by the loop over
    [initialConcentrations]; a pixel the loop does not reach stays
    transparent black. *)
Definition image_data (IMAGE_SIZE : Z) (initialConcentrations : list Q)
    : list Pixel :=
  map (fun k : nat =>
         match nth_error initialConcentrations k with
         | Some value => gray value
         | None => RGBA 0 0 0 0
         end)
      (seq 0 (Z.to_nat (IMAGE_SIZE * IMAGE_SIZE))).

(** [ctx.putImageData(imageData, 0, 0)] under the identity transform. *)
Definition putImageData (image_width image_height : Z) (image : list Pixel)
    (ctx : Canvas) : Canvas :=
  {| canvas_width := canvas_width ctx;
     canvas_height := canvas_height ctx;
     pixels :=
       map (fun k : nat =>
              let old := nth k (pixels ctx) black in
              let x := Z.of_nat k mod canvas_width ctx in
              let y := Z.of_nat k / canvas_width ctx in
              if (x <? image_width) && (y <? image_height)
              then nth (Z.to_nat (y * image_width + x)) image old
              else old)
           (seq 0 (length (pixels ctx))) |}.

Definition initial_bitmap (IMAGE_SIZE : Z) (initialConcentrations : list Q)
    (ctx : Canvas) : Canvas :=
  putImageData IMAGE_SIZE IMAGE_SIZE
    (image_data IMAGE_SIZE initialConcentrations) ctx.

(** The parameter source given to the simulator; [feed] and [kill] are the
    slider values. *)
Definition uniforms (feed kill : Q) (_tick : Z) : Uniforms.t :=
  {| Uniforms.diffusion_rate := 0.7;
     Uniforms.diffusion_step := 1.0;
     Uniforms.feed := feed;
     Uniforms.kill := kill;
     Uniforms.reset := false |}.

(** The configuration object of [diagram1], for a simulation of side
    [SIMULATION_SIZE]. *)
Definition diagram_params (SIMULATION_SIZE : Z)
    (initialConcentrations : list Q) (enhancedEdgeMap : option (list Q))
    : DiagramParam.t :=
  {| DiagramParam.size := SIMULATION_SIZE;
     DiagramParam.iterations_per_tick := 20;
     DiagramParam.initial_bitmap :=
       initial_bitmap SIMULATION_SIZE initialConcentrations;
     DiagramParam.colorize_glsl := "vec3(step(texture2D(u_new, v_uv).x, 0.5))";
     DiagramParam.feed_mask := enhancedEdgeMap |}.

End Main.

(** ** Concrete backends and sessions used to exercise the model *)

Module Demo.
Import GLSL JS Regl Simulator.

(** A backend that validates shapes: both sides positive. *)
Definition checked_regl : Backend :=
  {| shape_ok := fun w h => (0 <? w) && (0 <? h) |}.

Definition session_of (r : Result Session) : Session :=
  match r with
  | Ok s => s
  | Throw _ =>
      {| params := Main.diagram_params 0 [] None;
         uniforms := Main.uniforms 0 0;
         feedMaskTexture := None; buffer_textures := [];
         source_bitmap := black_canvas 0 0;
         currentOutputIn := 0; log := [] |}
  end.

(** A 3 x 3 simulation with a seed image and a mask. *)
Definition seed3 : list Q := [1; 0; 0.5; 0; 0.25; 0; 0.75; 0; 1]%Q.
Definition mask3 : list Q := [1; 1; 1; 0.5; 0.5; 0.5; 0; 0; 0]%Q.

Definition masked3 : Session :=
  session_of
    (makeReactionDiffusionDiagram checked_regl
       (Main.diagram_params 3 seed3 (Some mask3))
       (Main.uniforms 0.03 0.06)).

(** The same simulation constructed without a mask. *)
Definition unmasked3 : Session :=
  session_of
    (makeReactionDiffusionDiagram checked_regl
       (Main.diagram_params 3 seed3 None)
       (Main.uniforms 0.03 0.06)).

(** The mask texture the constructor makes of [mask3]. *)
Definition mask3_texture : Texture :=
  {| width := 3; height := 3; filter := nearest; wrap := wrap_clamp;
     texels := map luminance mask3 |}.

(** The 3 x 3 simulation seeded with a black image. *)
Definition black3 : Session :=
  session_of
    (makeReactionDiffusionDiagram checked_regl
       (Main.diagram_params 3 (repeat 0%Q 9) (Some mask3))
       (Main.uniforms 0.03 0.06)).

(** A parameter source that asks for a reset on every tick, and the
    3 x 3 simulation driven by it. *)
Definition reset_uniforms (_tick : Z) : Uniforms.t :=
  {| Uniforms.diffusion_rate := 0.7;
     Uniforms.diffusion_step := 1.0;
     Uniforms.feed := 0.03;
     Uniforms.kill := 0.06;
     Uniforms.reset := true |}.

Definition resetting3 : Session :=
  session_of
    (makeReactionDiffusionDiagram checked_regl
       (Main.diagram_params 3 seed3 (Some mask3)) reset_uniforms).

Definition visible_frame : Context :=
  {| tick := 1; dataset_visible := None; visibilityState := "visible" |}.

Definition hidden_frame : Context :=
  {| tick := 1; dataset_visible := Some "hidden"%string;
     visibilityState := "visible" |}.

(** A 4 x 4 simulation (sides that are powers of two, as wrap mode
    'repeat' wants them) constructed without a mask. *)
Definition seed4 : list Q :=
  [1; 0; 0.5; 0; 0; 0.25; 0; 0.75; 1; 0; 0; 0.5; 0; 1; 0.25; 0]%Q.
Definition mask4 : list Q :=
  [1; 1; 1; 1; 0.5; 0.5; 0.5; 0.5; 0; 0; 0; 0; 1; 0.5; 0; 1]%Q.

Definition unmasked4 : Session :=
  session_of
    (makeReactionDiffusionDiagram checked_regl
       (Main.diagram_params 4 seed4 None)
       (Main.uniforms 0.03 0.06)).

(** The 4 x 4 simulation with a mask and one step per tick, and the
    session one visible frame leaves: it has run one stencil step. *)
Definition single_step_params : DiagramParam.t :=
  {| DiagramParam.size := 4;
     DiagramParam.iterations_per_tick := 1;
     DiagramParam.initial_bitmap := Main.initial_bitmap 4 seed4;
     DiagramParam.colorize_glsl := "vec3(step(texture2D(u_new, v_uv).x, 0.5))";
     DiagramParam.feed_mask := Some mask4 |}.

Definition stepping4 : Session :=
  session_of
    (makeReactionDiffusionDiagram checked_regl single_step_params
       (Main.uniforms 0.03 0.06)).

Definition stepped4 : Session :=
  fst (frame checked_regl visible_frame stepping4).

Definition mask4_texture : Texture :=
  {| width := 4; height := 4; filter := nearest; wrap := wrap_clamp;
     texels := map luminance mask4 |}.

End Demo.

(** ** Observers and invariants used to state the properties *)

Module Observe.
Import GLSL JS Regl Simulator.

Definition no_texture : Texture :=
  {| width := 0; height := 0; filter := nearest; wrap := wrap_clamp;
     texels := [] |}.

(** Buffer [k] of the pair. *)
Definition buffer (s : Session) (k : Z) : Texture :=
  match index (buffer_textures s) k with
  | Some t => t
  | None => no_texture
  end.

(** The buffer the next step samples, and the one it draws into. *)
Definition read_buffer (s : Session) : Texture := buffer s (currentOutputIn s).
Definition write_buffer (s : Session) : Texture :=
  buffer s (1 - currentOutputIn s).

Definition size_of (s : Session) : Z := DiagramParam.size (params s).

Definition buffer_ok (n : Z) (b : Texture) : Prop :=
  width b = n /\ height b = n /\ filter b = linear /\ wrap b = wrap_repeat /\
  length (texels b) = Z.to_nat (n * n).

Definition mask_ok (n : Z) (m : Texture) : Prop :=
  width m = n /\ height m = n /\ filter m = nearest /\ wrap m = wrap_clamp.

(** The stencil passes of a log (newest first) alternate between the two
    buffers and the newest one drew into buffer [cur]: each pass samples
    the buffer the previous one drew into and draws into the other. *)
Fixpoint alternating (l : list Effect) (cur : Z) : Prop :=
  match l with
  | [] => True
  | RenderPass StencilPass reads target :: older =>
      reads = [1 - cur] /\ target = Some cur /\ alternating older (1 - cur)
  | _ :: older => alternating older cur
  end.

Definition well_formed (regl : Backend) (s : Session) : Prop :=
  shape_ok regl (size_of s) (size_of s) = true /\
  (currentOutputIn s = 0 \/ currentOutputIn s = 1) /\
  (exists b0 b1, buffer_textures s = [b0; b1] /\
                 buffer_ok (size_of s) b0 /\ buffer_ok (size_of s) b1) /\
  (forall m, feedMaskTexture s = Some m -> mask_ok (size_of s) m) /\
  alternating (log s) (currentOutputIn s).

(** The session with texel (i, j) of its read buffer replaced by [v]. *)
Definition poke (s : Session) (i j : Z) (v : vec4) : Session :=
  let t := read_buffer s in
  let t' := {| width := width t; height := height t; filter := filter t;
               wrap := wrap t;
               texels := update (texels t) (Z.to_nat (j * width t + i)) v |} in
  with_buffer_textures
    (update (buffer_textures s) (Z.to_nat (currentOutputIn s)) t') s.

End Observe.

(** ** The image preprocessing of main.ts *)

Module Image.
Import JS.

(** The values [v] of [for (let v = lo; v < hi; v++)], in order. *)
Definition for_range (lo hi : Z) : list Z :=
  map (fun k : nat => lo + Z.of_nat k) (seq 0 (Z.to_nat (hi - lo))).

(** [a[k]] read from an array of numbers and [a[k] = v] on a typed array
    (a store outside the array is dropped).  A read outside the array
    yields 0 here; the functions below read inside their arrays only
    (lemmas [enhanceEdges_reads_inside] and the length hypotheses of the
    statements on [get_image_data]). *)
Definition element (a : list Q) (k : Z) : Q :=
  if k <? 0 then 0%Q else nth (Z.to_nat k) a 0%Q.

Definition byte (a : list Z) (k : Z) : Z :=
  if k <? 0 then 0 else nth (Z.to_nat k) a 0.

Definition store (a : list Q) (k : Z) (v : Q) : list Q :=
  if k <? 0 then a else update a (Z.to_nat k) v.

Definition RED_WEIGHT : Q := 0.299.
Definition GREEN_WEIGHT : Q := 0.587.
Definition BLUE_WEIGHT : Q := 0.114.

(** The loop of [get_image_data] over the RGBA bytes read back from the
    canvas the bitmap was drawn on ([ctx.getImageData(...).data]); in
    main.ts IMAGE_SIZE is SIMULATION_SIZE. *)
Definition get_image_data (imageData : list Z) (SIMULATION_SIZE : Z)
    : list Q :=
  let IMAGE_SIZE := SIMULATION_SIZE in
  map (fun k : nat =>
         let i := Z.of_nat k in
         let r := inject_Z (byte imageData (i * 4)) in
         let g := inject_Z (byte imageData (i * 4 + 1)) in
         let b := inject_Z (byte imageData (i * 4 + 2)) in
         let luminance :=
           (RED_WEIGHT * r + GREEN_WEIGHT * g + BLUE_WEIGHT * b)%Q in
         (luminance / 255)%Q)
      (seq 0 (Z.to_nat (IMAGE_SIZE * SIMULATION_SIZE))).

Definition KERNEL_RADIUS : Z := 1.

Definition LAPLACIAN_KERNEL : list Q :=
  [0; -1; 0;
   -1; 4; -1;
   0; -1; 0]%Q.

(** The two inner loops of [enhanceEdges]: the kernel applied around
    (x, y). *)
Definition edge_at (data : list Q) (size y x : Z) : Q :=
  fold_left
    (fun edge ky =>
       fold_left
         (fun edge kx =>
            let sampleIndex := (y + ky) * size + (x + kx) in
            let kernelIndex := (ky + 1) * 3 + (kx + 1) in
            (edge + element data sampleIndex
                    * element LAPLACIAN_KERNEL kernelIndex)%Q)
         (for_range (-1) (1 + 1)) edge)
    (for_range (-1) (1 + 1)) 0%Q.

(** The body of the two outer loops: one output cell. *)
Definition enhance_cell (data : list Q) (size y : Z) (output : list Q)
    (x : Z) : list Q :=
  let edge := edge_at data size y x in
  let centerIndex := y * size + x in
  let enhancedValue := (element data centerIndex + edge)%Q in
  store output centerIndex (Main.clamp01 enhancedValue).

(** [enhanceEdges(data, size)]: the [console.error] arguments, if the
    guard fired, and the returned array. *)
Definition enhanceEdges (data : list Q) (size : Z)
    : option (Z * Z) * list Q :=
  if negb (Z.of_nat (length data) =? size * size)
  then (Some (Z.of_nat (length data), size),
        repeat 0%Q (Z.to_nat (size * size)))
  else
    (None,
     fold_left
       (fun output y =>
          fold_left (enhance_cell data size y)
            (for_range KERNEL_RADIUS (size - KERNEL_RADIUS)) output)
       (for_range KERNEL_RADIUS (size - KERNEL_RADIUS))
       (repeat 0%Q (length data))).

End Image.

(** ** The stores of [enhanceEdges] as a sequence *)

Module Stores.
Import Image.

(** The stores the loops of [enhanceEdges] perform over the rows [ys] and
    the columns [xs], in order, and their effect on an array. *)
Definition stores_of (data : list Q) (size : Z) (ys xs : list Z)
    : list (Z * Q) :=
  flat_map
    (fun y =>
       map (fun x =>
              ((y * size + x)%Z,
               Main.clamp01 (element data (y * size + x)
                             + edge_at data size y x)))
           xs)
    ys.

Definition apply_stores (writes : list (Z * Q)) (output : list Q) : list Q :=
  fold_left (fun out w => store out (fst w) (snd w)) writes output.

End Stores.

(** ** The page (main.ts): start-up and the upload handler *)

Module App.
Import JS Regl Simulator.

(** The variables of the DOMContentLoaded handler that outlive it. *)
Record t : Type := {
  initialConcentrations : list Q;
  enhancedEdgeMap : list Q;
  diagram1 : Session
}.

(** The painter given to the diagram closes over [initialConcentrations]
    and reads it each time it runs, so a write into that array is seen by
    the diagram: the session holds the painter of the current array. *)
Definition with_concentrations (SIMULATION_SIZE : Z)
    (concentrations : list Q) (s : Session) : Session :=
  {| params :=
       {| DiagramParam.size := DiagramParam.size (params s);
          DiagramParam.iterations_per_tick :=
            DiagramParam.iterations_per_tick (params s);
          DiagramParam.initial_bitmap :=
            Main.initial_bitmap SIMULATION_SIZE concentrations;
          DiagramParam.colorize_glsl := DiagramParam.colorize_glsl (params s);
          DiagramParam.feed_mask := DiagramParam.feed_mask (params s) |};
     uniforms := uniforms s;
     feedMaskTexture := feedMaskTexture s;
     buffer_textures := buffer_textures s;
     source_bitmap := source_bitmap s;
     currentOutputIn := currentOutputIn s;
     log := log s |}.

Section WithBackend.

Variable regl : Backend.
Variable SIMULATION_SIZE : Z.

(** The start-up: the default image is preprocessed and the diagram is
    made; [feed] and [kill] are the slider values. *)
Definition start (imageData : list Z) (feed kill : Q) : Result t :=
  let initialConcentrations := Image.get_image_data imageData SIMULATION_SIZE in
  let enhancedEdgeMap :=
    snd (Image.enhanceEdges initialConcentrations SIMULATION_SIZE) in
  bindR (makeReactionDiffusionDiagram regl
           (Main.diagram_params SIMULATION_SIZE initialConcentrations
              (Some enhancedEdgeMap))
           (Main.uniforms feed kill))
        (fun diagram1 =>
           Ok {| initialConcentrations := initialConcentrations;
                 enhancedEdgeMap := enhancedEdgeMap;
                 diagram1 := diagram1 |}).

(** The change handler of the upload input; [files] is the image data of
    the first selected file, if any. *)
Definition upload (files : option (list Z)) (app : t) : t * Result unit :=
  match files with
  | None => (app, Ok tt)
  | Some imageData =>
      let newConcentrations :=
        Image.get_image_data imageData SIMULATION_SIZE in
      let newEnhancedEdges :=
        snd (Image.enhanceEdges newConcentrations SIMULATION_SIZE) in
      match JS.set (initialConcentrations app) newConcentrations with
      | Throw e => (app, Throw e)
      | Ok concentrations =>
          let app1 :=
            {| initialConcentrations := concentrations;
               enhancedEdgeMap := enhancedEdgeMap app;
               diagram1 := with_concentrations SIMULATION_SIZE
                             concentrations (diagram1 app) |} in
          match JS.set (enhancedEdgeMap app1) newEnhancedEdges with
          | Throw e => (app1, Throw e)
          | Ok edges =>
              let (d, r) :=
                bind (updateFeedMask regl edges)
                  (fun _ => bind reloadInitialBitmap
                              (fun _ => reset regl))
                  (diagram1 app1) in
              ({| initialConcentrations := concentrations;
                  enhancedEdgeMap := edges;
                  diagram1 := d |}, r)
          end
      end
  end.

(** What start-up establishes and the upload handler keeps: the two
    arrays have one element per cell and the diagram is a well-formed
    session of that size with a mask texture, whose painter is the one of
    the current array. *)
Definition ready (app : t) : Prop :=
  Z.of_nat (length (initialConcentrations app))
  = SIMULATION_SIZE * SIMULATION_SIZE /\
  Z.of_nat (length (enhancedEdgeMap app))
  = SIMULATION_SIZE * SIMULATION_SIZE /\
  Observe.well_formed regl (diagram1 app) /\
  Observe.size_of (diagram1 app) = SIMULATION_SIZE /\
  DiagramParam.initial_bitmap (params (diagram1 app))
  = Main.initial_bitmap SIMULATION_SIZE (initialConcentrations app) /\
  feedMaskTexture (diagram1 app) <> None.

End WithBackend.

End App.

(** ** Counting the effects of a log *)

Module Trace.
Import Simulator.

Definition is_pass (kind : PassKind) (e : Effect) : bool :=
  match e, kind with
  | RenderPass PaintPass _ _, PaintPass => true
  | RenderPass StencilPass _ _, StencilPass => true
  | RenderPass DrawPass _ _, DrawPass => true
  | _, _ => false
  end.

Definition is_call (e : Effect) : bool :=
  match e with
  | CallUniforms _ => true
  | _ => false
  end.

(** How many passes of a kind, and how many calls of the parameter
    source, a log records. *)
Definition passes (kind : PassKind) (l : list Effect) : nat :=
  length (filter (is_pass kind) l).

Definition calls (l : list Effect) : nat := length (filter is_call l).

End Trace.

(** ** A small page used to exercise the model *)

Module DemoPage.
Import JS Simulator.

(** The RGBA bytes of a 2 x 2 image: white, black, mid-gray and red. *)
Definition image2 : list Z :=
  [255; 255; 255; 255;  0; 0; 0; 255;  128; 128; 128; 255;  255; 0; 0; 255].

(** Another 2 x 2 image: uniformly light gray. *)
Definition upload2 : list Z :=
  [200; 200; 200; 255;  200; 200; 200; 255;
   200; 200; 200; 255;  200; 200; 200; 255].

(** The page started on [image2]. *)
Definition page2 : App.t :=
  match App.start Demo.checked_regl 2 image2 0.03 0.06 with
  | Ok app => app
  | Throw _ =>
      {| App.initialConcentrations := []; App.enhancedEdgeMap := [];
         App.diagram1 := Demo.session_of (Throw RangeError) |}
  end.

End DemoPage.

(** * Properties *)

Import GLSL JS Regl Simulator Observe.

(** ** The sampler at pixel centres *)

Section SamplerFacts.
Local Open Scope Q_scope.
Lemma inject_Z_nonzero (w : Z) : (0 < w)%Z -> ~ inject_Z w == 0.
Proof. intros Hw H. unfold Qeq in H; simpl in H. lia. Qed.

Lemma Qfloor_half (a : Z) : Qfloor (inject_Z a + (1 # 2)) = a.
Proof.
  unfold Qfloor, Qplus, inject_Z; simpl.
  symmetry; apply Z.div_unique with (r := 1%Z); lia.
Qed.

Lemma mix_weight_0 (x y a : Q) : a == 0 -> mix x y a == x.
Proof. intros Ha; unfold mix; rewrite Ha; ring. Qed.

Lemma mix_weight_1 (x y a : Q) : a == 1 -> mix x y a == y.
Proof. intros Ha; unfold mix; rewrite Ha; ring. Qed.

Lemma mix4_weight_0 (u v : vec4) (a : Q) : a == 0 -> eq4 (mix4 u v a) u.
Proof.
  intros Ha; unfold eq4, mix4; simpl.
  repeat split; apply mix_weight_0; exact Ha.
Qed.

Lemma mix4_weight_1 (u v : vec4) (a : Q) : a == 1 -> eq4 (mix4 u v a) v.
Proof.
  intros Ha; unfold eq4, mix4; simpl.
  repeat split; apply mix_weight_1; exact Ha.
Qed.

Lemma eq4_trans (u v w : vec4) : eq4 u v -> eq4 v w -> eq4 u w.
Proof.
  unfold eq4; intros (A1 & A2 & A3 & A4) (B1 & B2 & B3 & B4).
  repeat split; etransitivity; eassumption.
Qed.

(** Bilinear sampling at a texel centre returns that texel. *)
Lemma texture2D_linear_centre (t : Texture) (uv : vec2) (a b : Z) :
  filter t = linear ->
  x2 uv * inject_Z (width t) - (1 # 2) == inject_Z a ->
  y2 uv * inject_Z (height t) - (1 # 2) == inject_Z b ->
  eq4 (texture2D t uv)
      (texel t (wrap_coord (wrap t) (width t) a)
               (wrap_coord (wrap t) (height t) b)).
Proof.
  intros Hf Hx Hy. unfold texture2D. rewrite Hf.
  rewrite (Qfloor_comp _ _ Hx), (Qfloor_comp _ _ Hy), !Qfloor_Z.
  apply eq4_trans with
    (mix4 (texel t (wrap_coord (wrap t) (width t) a)
                   (wrap_coord (wrap t) (height t) b))
          (texel t (wrap_coord (wrap t) (width t) (a + 1))
                   (wrap_coord (wrap t) (height t) b))
          (x2 uv * inject_Z (width t) - (1 # 2) - inject_Z a)).
  - apply mix4_weight_0. rewrite Hy. ring.
  - apply mix4_weight_0. rewrite Hx. ring.
Qed.

(** Nearest sampling anywhere inside a texel returns that texel. *)
Lemma texture2D_nearest_centre (t : Texture) (uv : vec2) (a b : Z) :
  filter t = nearest ->
  x2 uv * inject_Z (width t) == inject_Z a + (1 # 2) ->
  y2 uv * inject_Z (height t) == inject_Z b + (1 # 2) ->
  texture2D t uv =
  texel t (wrap_coord (wrap t) (width t) a)
          (wrap_coord (wrap t) (height t) b).
Proof.
  intros Hf Hx Hy. unfold texture2D. rewrite Hf.
  rewrite (Qfloor_comp _ _ Hx), (Qfloor_comp _ _ Hy), !Qfloor_half.
  reflexivity.
Qed.

Lemma v_uv_x (w h i j : Z) :
  (0 < w)%Z -> x2 (v_uv w h i j) * inject_Z w == inject_Z i + (1 # 2).
Proof.
  intros Hw. unfold v_uv; simpl. field.
  apply inject_Z_nonzero; exact Hw.
Qed.

Lemma v_uv_y (w h i j : Z) :
  (0 < h)%Z -> y2 (v_uv w h i j) * inject_Z h == inject_Z j + (1 # 2).
Proof.
  intros Hw. unfold v_uv; simpl. field.
  apply inject_Z_nonzero; exact Hw.
Qed.

Lemma render_length (w h : Z) (frag : vec2 -> vec4) :
  length (render w h frag) = Z.to_nat (w * h).
Proof. unfold render. rewrite length_map, length_seq. reflexivity. Qed.

Lemma render_nth (w h i j : Z) (frag : vec2 -> vec4) :
  (0 <= i < w)%Z -> (0 <= j < h)%Z ->
  nth (Z.to_nat (j * w + i)) (render w h frag) zero4 = frag (v_uv w h i j).
Proof.
  intros Hi Hj. unfold render.
  assert (Hk : (Z.to_nat (j * w + i) < Z.to_nat (w * h))%nat)
    by (apply Z2Nat.inj_lt; nia).
  rewrite nth_indep with (d' := frag (v_uv w h 0 0))
    by (rewrite length_map, length_seq; exact Hk).
  change (frag (v_uv w h 0 0))
    with ((fun k : nat => frag (v_uv w h (Z.of_nat k mod w) (Z.of_nat k / w))) 0%nat).
  rewrite map_nth, seq_nth by exact Hk. simpl.
  rewrite Z2Nat.id by nia.
  replace ((j * w + i) mod w)%Z with i
    by (apply Z.mod_unique with (q := j); lia).
  replace ((j * w + i) / w)%Z with j
    by (apply Z.div_unique with (r := i); lia).
  reflexivity.
Qed.

End SamplerFacts.

(** ** Invariants of the session *)

Section Invariants.
Variable regl : Backend.

Ltac run_M := unfold bind, lift, modify, ret in *; simpl in *.

Ltac split_wf :=
  unfold well_formed, size_of in *;
  cbn [params currentOutputIn buffer_textures feedMaskTexture log
       source_bitmap uniforms emit with_buffer_textures with_currentOutputIn
       with_feedMaskTexture with_source_bitmap alternating fst snd];
  split; [| split; [| split; [| split]]].

Lemma index_two {A : Type} (a b : A) (k : Z) :
  k = 0 \/ k = 1 ->
  index [a; b] k = Some (if k =? 0 then a else b).
Proof. intros [-> | ->]; reflexivity. Qed.

Lemma update_two {A : Type} (a b v : A) (k : Z) :
  k = 0 \/ k = 1 ->
  update [a; b] (Z.to_nat k) v = if k =? 0 then [v; b] else [a; v].
Proof. intros [-> | ->]; reflexivity. Qed.

Lemma draw_into_throw kind k reads e s :
  draw_into kind k reads (Throw e) s = (s, Throw e).
Proof. reflexivity. Qed.

Lemma draw_into_ok kind k reads frag s t :
  index (buffer_textures s) k = Some t ->
  draw_into kind k reads (Ok frag) s =
  (emit (RenderPass kind reads (Some k))
     (with_buffer_textures
        (update (buffer_textures s) (Z.to_nat k)
           {| width := width t; height := height t; filter := filter t;
              wrap := wrap t;
              texels := render (width t) (height t) frag |}) s),
   Ok tt).
Proof. intros H. unfold draw_into. run_M. rewrite H. reflexivity. Qed.

Lemma render_ok n (t : Texture) frag :
  buffer_ok n t ->
  buffer_ok n {| width := width t; height := height t; filter := filter t;
                 wrap := wrap t;
                 texels := render (width t) (height t) frag |}.
Proof.
  intros (Hw & Hh & Hf & Hr & Hl). unfold buffer_ok; simpl.
  rewrite render_length, Hw, Hh. auto.
Qed.

Lemma buffer_two (s : Session) (b0 b1 : Texture) (k : Z) :
  buffer_textures s = [b0; b1] -> k = 0 \/ k = 1 ->
  index (buffer_textures s) k = Some (buffer s k) /\
  buffer s k = (if k =? 0 then b0 else b1).
Proof.
  intros Hb Hk. unfold buffer. rewrite Hb, (index_two _ _ _ Hk). auto.
Qed.

Lemma wf_index (s : Session) (k : Z) :
  well_formed regl s -> k = 0 \/ k = 1 ->
  index (buffer_textures s) k = Some (buffer s k) /\
  buffer_ok (size_of s) (buffer s k).
Proof.
  intros (_ & _ & (b0 & b1 & Hb & H0 & H1) & _) Hk.
  destruct (buffer_two s b0 b1 k Hb Hk) as [Hi He]. split; [exact Hi|].
  rewrite He. destruct Hk as [-> | ->]; assumption.
Qed.

Lemma wf_buffer_texture (s : Session) (k : Z) :
  well_formed regl s -> k = 0 \/ k = 1 ->
  buffer_texture s k = UTexture (buffer s k).
Proof.
  intros Hwf Hk. unfold buffer_texture.
  destruct (wf_index s k Hwf Hk) as [-> _]. reflexivity.
Qed.

Lemma other_index (k : Z) : k = 0 \/ k = 1 -> 1 - k = 0 \/ 1 - k = 1.
Proof. lia. Qed.

(** Drawing into one of the two buffers keeps the pair well formed. *)
Lemma buffers_after_update (s : Session) (k : Z) (t' : Texture) :
  well_formed regl s -> k = 0 \/ k = 1 -> buffer_ok (size_of s) t' ->
  exists b0 b1,
    update (buffer_textures s) (Z.to_nat k) t' = [b0; b1] /\
    buffer_ok (size_of s) b0 /\ buffer_ok (size_of s) b1.
Proof.
  intros (_ & _ & (b0 & b1 & Hb & H0 & H1) & _) Hk Ht.
  rewrite Hb, (update_two _ _ _ _ Hk).
  destruct Hk as [-> | ->]; simpl; eauto.
Qed.

Lemma wf_draw_into (kind : PassKind) (k : Z) (reads : list Z)
    (command : Command) (s : Session) :
  well_formed regl s -> k = 0 \/ k = 1 -> kind <> StencilPass ->
  well_formed regl (fst (draw_into kind k reads command s)).
Proof.
  intros Hwf Hk Hkind. destruct command as [frag | e];
    [| rewrite draw_into_throw; exact Hwf].
  destruct (wf_index s k Hwf Hk) as [Hi Hok].
  rewrite (draw_into_ok _ _ _ _ _ _ Hi). simpl.
  pose proof (buffers_after_update s k _ Hwf Hk (render_ok _ _ frag Hok)) as Hu.
  destruct Hwf as (Hs & Hc & _ & Hm & Ha).
  split_wf; try assumption.
  destruct kind; try assumption. congruence.
Qed.

Lemma wf_reset (s : Session) :
  well_formed regl s -> well_formed regl (fst (reset regl s)).
Proof.
  intros Hwf. unfold reset. run_M.
  destruct (texture_of_canvas regl (source_bitmap s)) as [src | e];
    [| exact Hwf].
  apply wf_draw_into; [exact Hwf | | discriminate].
  destruct Hwf as (_ & Hc & _). exact Hc.
Qed.

(** What [run] does on a well-formed session. *)
Lemma run_spec (fn : UniformValue -> Command) (s : Session) :
  well_formed regl s ->
  run fn s =
  match fn (UTexture (read_buffer s)) with
  | Ok frag =>
      (with_currentOutputIn (1 - currentOutputIn s)
         (emit (RenderPass StencilPass [currentOutputIn s]
                  (Some (1 - currentOutputIn s)))
            (with_buffer_textures
               (update (buffer_textures s) (Z.to_nat (1 - currentOutputIn s))
                  {| width := width (write_buffer s);
                     height := height (write_buffer s);
                     filter := filter (write_buffer s);
                     wrap := wrap (write_buffer s);
                     texels := render (width (write_buffer s))
                                 (height (write_buffer s)) frag |}) s)),
       Ok tt)
  | Throw e => (s, Throw e)
  end.
Proof.
  intros Hwf. pose proof Hwf as (_ & Hc & _).
  unfold run. unfold bind at 1.
  rewrite (wf_buffer_texture s _ Hwf Hc). fold (read_buffer s).
  destruct (fn (UTexture (read_buffer s))) as [frag | e];
    [| rewrite draw_into_throw; reflexivity].
  destruct (wf_index s _ Hwf (other_index _ Hc)) as [Hi _].
  rewrite (draw_into_ok _ _ _ _ _ _ Hi). reflexivity.
Qed.

Lemma wf_run (fn : UniformValue -> Command) (s : Session) :
  well_formed regl s -> well_formed regl (fst (run fn s)).
Proof.
  intros Hwf. rewrite (run_spec fn s Hwf).
  destruct (fn (UTexture (read_buffer s))) as [frag | e]; [| exact Hwf].
  pose proof Hwf as (Hs & Hc & _ & Hm & Ha).
  destruct (wf_index s _ Hwf (other_index _ Hc)) as [_ Hok].
  pose proof (buffers_after_update s _ _ Hwf (other_index _ Hc)
                (render_ok _ _ frag Hok)) as Hu.
  split_wf; try assumption; try lia.
  replace (1 - (1 - currentOutputIn s)) with (currentOutputIn s) by lia.
  auto.
Qed.

Lemma wf_emit (e : Effect) (s : Session) :
  well_formed regl s ->
  (forall reads target, e <> RenderPass StencilPass reads target) ->
  well_formed regl (emit e s).
Proof.
  intros (Hs & Hc & Hb & Hm & Ha) He.
  split_wf; try assumption.
  destruct e as [? ? | ? | kind reads target]; try assumption.
  destruct kind; try assumption. exfalso; eapply He; reflexivity.
Qed.

Lemma wf_iteration (t : Z) (s : Session) :
  well_formed regl s -> well_formed regl (fst (iteration regl t s)).
Proof.
  intros Hwf. unfold iteration. unfold bind at 1.
  assert (H1 : well_formed regl (emit (CallUniforms t) s))
    by (apply wf_emit; [exact Hwf | discriminate]).
  set (u := uniforms s t).
  assert (H2 : forall s1, well_formed regl s1 ->
            well_formed regl
              (fst ((if Uniforms.reset u then reset regl else ret tt) s1))).
  { intros s1 Hs1. destruct (Uniforms.reset u); [apply wf_reset | ]; exact Hs1. }
  unfold bind.
  specialize (H2 _ H1).
  destruct ((if Uniforms.reset u then reset regl else ret tt)
              (emit (CallUniforms t) s)) as [s2 [[] | e]]; simpl in *.
  - apply wf_run. exact H2.
  - exact H2.
Qed.

Lemma wf_repeat_times (n : nat) (body : M unit) :
  (forall s, well_formed regl s -> well_formed regl (fst (body s))) ->
  forall s, well_formed regl s ->
            well_formed regl (fst (repeat_times n body s)).
Proof.
  intros Hbody. induction n as [| n IH]; intros s Hwf; simpl; [exact Hwf|].
  unfold bind. specialize (Hbody s Hwf).
  destruct (body s) as [s1 [[] | e]]; simpl in *; auto.
Qed.

Lemma wf_draw (s : Session) :
  well_formed regl s -> well_formed regl (fst (draw s)).
Proof.
  intros Hwf. pose proof Hwf as (_ & Hc & _).
  unfold draw.
  rewrite (wf_buffer_texture s _ Hwf Hc),
          (wf_buffer_texture s _ Hwf (other_index _ Hc)).
  run_M. apply wf_emit; [exact Hwf | discriminate].
Qed.

Lemma wf_frame (context : Context) (s : Session) :
  well_formed regl s -> well_formed regl (fst (frame regl context s)).
Proof.
  intros Hwf. unfold frame. destruct (hidden context); [exact Hwf|].
  unfold bind.
  pose proof (wf_repeat_times
                (Z.to_nat (DiagramParam.iterations_per_tick (params s)))
                (iteration regl (tick context))
                (wf_iteration (tick context)) s Hwf) as H.
  destruct (repeat_times _ _ s) as [s1 [[] | e]]; simpl in *.
  - apply wf_draw; exact H.
  - exact H.
Qed.

(** *** The mask update *)

Lemma skipn_repeat {A : Type} (x : A) (k n : nat) :
  skipn k (repeat x n) = repeat x (n - k).
Proof.
  revert n; induction k as [| k IH]; intros [| n]; simpl; auto.
Qed.

Lemma subarray_prefix (a : list Q) (n : Z) :
  0 <= n -> subarray a 0 n = firstn (Z.to_nat n) a.
Proof.
  intros Hn. unfold subarray, relative_index.
  replace (0 <? 0) with false by reflexivity.
  replace (n <? 0) with false by (symmetry; apply Z.ltb_ge; exact Hn).
  rewrite (Z.min_l 0) by lia. rewrite Z.sub_0_r. simpl skipn.
  destruct (Z.le_ge_cases n (Z.of_nat (length a))) as [H | H].
  - rewrite Z.min_l by exact H. reflexivity.
  - rewrite Z.min_r by exact H. rewrite Nat2Z.id.
    rewrite firstn_all. symmetry. apply firstn_all2. lia.
Qed.

(** The array [updateFeedMask] goes on with: the argument itself when its
    length is right, otherwise its prefix padded with zeros, after a
    warning. *)
Lemma normalize_mask_spec (newFeedMask : list Q) (s : Session) :
  normalize_mask newFeedMask s =
  let n := size_of s * size_of s in
  if Z.of_nat (length newFeedMask) =? n
  then (s, Ok newFeedMask)
  else (emit (ConsoleWarn n (Z.of_nat (length newFeedMask))) s,
        Ok (firstn (Z.to_nat n) newFeedMask
            ++ repeat 0%Q (Z.to_nat n - length newFeedMask))).
Proof.
  unfold normalize_mask, size_of. cbv zeta.
  set (n := DiagramParam.size (params s) * DiagramParam.size (params s)).
  assert (Hn : 0 <= n) by (unfold n; nia).
  destruct (Z.of_nat (length newFeedMask) =? n); [reflexivity|].
  unfold bind, modify, lift, Float32Array_new. cbn [params emit].
  fold n.
  replace (n <? 0) with false by (symmetry; apply Z.ltb_ge; exact Hn).
  rewrite (subarray_prefix _ _ Hn). unfold JS.set.
  rewrite repeat_length, length_firstn.
  replace (Z.to_nat n <? Nat.min (Z.to_nat n) (length newFeedMask))%nat
    with false by (symmetry; apply Nat.ltb_ge; lia).
  rewrite skipn_repeat.
  replace (Z.to_nat n - Nat.min (Z.to_nat n) (length newFeedMask))%nat
    with (Z.to_nat n - length newFeedMask)%nat by lia.
  reflexivity.
Qed.

Lemma normalized_length (newFeedMask : list Q) (n : nat) :
  length (firstn n newFeedMask ++ repeat 0%Q (n - length newFeedMask)) = n.
Proof. rewrite length_app, length_firstn, repeat_length. lia. Qed.

Lemma wf_with_mask (s : Session) (t : Texture) :
  well_formed regl s -> mask_ok (size_of s) t ->
  well_formed regl (with_feedMaskTexture (Some t) s).
Proof.
  intros (Hs & Hc & Hb & Hm & Ha) Ht. split_wf; try assumption.
  intros m Hm'. injection Hm' as <-. exact Ht.
Qed.

Lemma wf_install_mask (mask : list Q) (s : Session) :
  well_formed regl s -> well_formed regl (fst (install_mask regl mask s)).
Proof.
  intros Hwf. unfold install_mask.
  destruct (feedMaskTexture s) as [old |]; [| exact Hwf].
  unfold bind, lift, modify, texture.
  pose proof Hwf as (Hs & _). unfold size_of in Hs. rewrite Hs. simpl.
  apply wf_with_mask; [exact Hwf|]. unfold mask_ok; simpl. auto.
Qed.

Lemma wf_updateFeedMask (mask : list Q) (s : Session) :
  well_formed regl s -> well_formed regl (fst (updateFeedMask regl mask s)).
Proof.
  intros Hwf. unfold updateFeedMask, bind.
  rewrite normalize_mask_spec. cbv zeta.
  destruct (Z.of_nat (length mask) =? size_of s * size_of s).
  - apply wf_install_mask; exact Hwf.
  - apply wf_install_mask. apply wf_emit; [exact Hwf | discriminate].
Qed.

Lemma wf_reloadInitialBitmap (s : Session) :
  well_formed regl s -> well_formed regl (fst (reloadInitialBitmap s)).
Proof.
  intros (Hs & Hc & Hb & Hm & Ha). unfold reloadInitialBitmap, modify.
  split_wf; assumption.
Qed.

(** The session the constructor returns is well formed. *)
Lemma wf_make (p : DiagramParam.t) (u : Z -> Uniforms.t) (s : Session) :
  makeReactionDiffusionDiagram regl p u = Ok s -> well_formed regl s.
Proof.
  unfold makeReactionDiffusionDiagram, texture. cbv zeta.
  destruct (shape_ok regl (DiagramParam.size p) (DiagramParam.size p)) eqn:Hs.
  2:{ destruct (DiagramParam.feed_mask p); simpl; discriminate. }
  set (n := DiagramParam.size p) in *.
  set (mt := match DiagramParam.feed_mask p with
             | Some mask => _ | None => _ end).
  assert (Hmt : exists v, mt = Ok v /\
                 forall m, v = Some m -> mask_ok n m).
  { unfold mt. destruct (DiagramParam.feed_mask p) as [mask |]; simpl.
    - eexists; split; [reflexivity|]. intros m Hm. injection Hm as <-.
      unfold mask_ok; simpl; auto.
    - eexists; split; [reflexivity|]. discriminate. }
  destruct Hmt as (v & -> & Hv). simpl.
  match goal with
  | |- match reset regl ?s0 with _ => _ end = _ -> _ =>
      assert (Hwf0 : well_formed regl s0); [| pose proof (wf_reset s0 Hwf0) as H;
        destruct (reset regl s0) as [s1 [[] | e]]; simpl in H;
        intros Heq; [injection Heq as <-; exact H | discriminate]]
  end.
  split_wf; simpl; auto.
  do 2 eexists; split; [reflexivity|].
  unfold buffer_ok; simpl; rewrite repeat_length; auto 10.
Qed.

Lemma reachable_well_formed (s : Session) :
  reachable regl s -> well_formed regl s.
Proof.
  induction 1 as [p u s Hmake | s _ IH | s context _ IH | s mask _ IH | s _ IH].
  - eapply wf_make; eassumption.
  - apply wf_reset; exact IH.
  - apply wf_frame; exact IH.
  - apply wf_updateFeedMask; exact IH.
  - apply wf_reloadInitialBitmap; exact IH.
Qed.

End Invariants.

(** ** The demonstration sessions are reachable *)

Section DemoFacts.
Import Demo.

Lemma session_of_made (regl : Backend) (p : DiagramParam.t)
    (u : Z -> Uniforms.t) :
  (exists s, makeReactionDiffusionDiagram regl p u = Ok s) ->
  reachable regl (session_of (makeReactionDiffusionDiagram regl p u)).
Proof.
  intros [s Hs]. apply reach_make with (p := p) (u := u).
  rewrite Hs. reflexivity.
Qed.

Lemma masked3_reachable : reachable checked_regl masked3.
Proof.
  apply session_of_made.
  destruct (makeReactionDiffusionDiagram _ _ _) as [s | e] eqn:E;
    [eexists; reflexivity | exfalso].
  vm_compute in E. discriminate E.
Qed.

Lemma unmasked3_reachable : reachable checked_regl unmasked3.
Proof.
  apply session_of_made.
  destruct (makeReactionDiffusionDiagram _ _ _) as [s | e] eqn:E;
    [eexists; reflexivity | exfalso].
  vm_compute in E. discriminate E.
Qed.

Lemma unmasked4_reachable : reachable checked_regl unmasked4.
Proof.
  apply session_of_made.
  destruct (makeReactionDiffusionDiagram _ _ _) as [s | e] eqn:E;
    [eexists; reflexivity | exfalso].
  vm_compute in E. discriminate E.
Qed.

Lemma stepping4_reachable : reachable checked_regl stepping4.
Proof.
  apply session_of_made.
  destruct (makeReactionDiffusionDiagram _ _ _) as [s | e] eqn:E;
    [eexists; reflexivity | exfalso].
  vm_compute in E. discriminate E.
Qed.

Lemma stepped4_reachable : reachable checked_regl stepped4.
Proof. apply reach_frame. exact stepping4_reachable. Qed.

(** The frame that made [stepped4] ran one stencil step, from buffer 0
    into buffer 1, and left buffer 1 as the current one. *)
Lemma stepped4_log :
  log stepped4
  = [RenderPass DrawPass [1; 0] None;
     RenderPass StencilPass [0] (Some 1);
     CallUniforms 1;
     RenderPass PaintPass [1] (Some 0)].
Proof. vm_compute. reflexivity. Qed.

Lemma stepped4_current : currentOutputIn stepped4 = 1.
Proof. vm_compute. reflexivity. Qed.

Lemma stepped4_mask : feedMaskTexture stepped4 = Some mask4_texture.
Proof. vm_compute. reflexivity. Qed.

End DemoFacts.

(** ** Buffer roles *)

Section BufferRoles.
Variable regl : Backend.

Lemma alternating_stencil_passes (l : list Effect) (cur : Z) :
  cur = 0 \/ cur = 1 -> alternating l cur ->
  forall reads target, In (RenderPass StencilPass reads target) l ->
  exists r, (r = 0 \/ r = 1) /\ reads = [r] /\ target = Some (1 - r).
Proof.
  revert cur. induction l as [| e older IH]; intros cur Hc Ha reads target Hin;
    [destruct Hin|].
  destruct Hin as [-> | Hin].
  - simpl in Ha. destruct Ha as (-> & -> & _).
    exists (1 - cur). repeat split; [lia | f_equal; lia].
  - destruct e as [? ? | ? | kind rs tg]; simpl in Ha; eauto.
    destruct kind; eauto.
    destruct Ha as (_ & _ & Ha). eapply (IH (1 - cur)); eauto. lia.
Qed.

End BufferRoles.

(** ** The feed mask *)

(** C5: a field whose length is not size * size is replaced by the field
    of exactly that length made of its first elements followed by zeros;
    a warning is logged; and the call returns normally, installing the
    normalized field when the session has a mask texture. *)
Theorem updateFeedMask_normalizes (regl : Backend) (s : Session)
    (newFeedMask : list Q) :
  reachable regl s ->
  Z.of_nat (length newFeedMask) <> size_of s * size_of s ->
  let n := size_of s * size_of s in
  let fixed := firstn (Z.to_nat n) newFeedMask
               ++ repeat 0%Q (Z.to_nat n - length newFeedMask) in
  let s' := fst (updateFeedMask regl newFeedMask s) in
  normalize_mask newFeedMask s =
    (emit (ConsoleWarn n (Z.of_nat (length newFeedMask))) s, Ok fixed) /\
  Z.of_nat (length fixed) = n /\
  snd (updateFeedMask regl newFeedMask s) = Ok tt /\
  log s' = ConsoleWarn n (Z.of_nat (length newFeedMask)) :: log s /\
  (forall old, feedMaskTexture s = Some old ->
     exists t, feedMaskTexture s' = Some t /\
               texels t = map luminance fixed /\ mask_ok (size_of s) t) /\
  (feedMaskTexture s = None -> feedMaskTexture s' = None).
Proof.
  intros Hr Hlen n fixed s'.
  pose proof (reachable_well_formed regl s Hr) as (Hs & _).
  assert (Hnorm : normalize_mask newFeedMask s =
            (emit (ConsoleWarn n (Z.of_nat (length newFeedMask))) s, Ok fixed)).
  { rewrite normalize_mask_spec. cbv zeta. fold n.
    destruct (Z.eqb_spec (Z.of_nat (length newFeedMask)) n) as [E | _];
      [contradiction | reflexivity]. }
  split; [exact Hnorm|]. split.
  { unfold fixed. rewrite normalized_length. apply Z2Nat.id. unfold n; nia. }
  unfold s', updateFeedMask, bind. rewrite Hnorm.
  unfold install_mask, texture, size_of in *.
  cbn [feedMaskTexture params emit]. rewrite Hs.
  destruct (feedMaskTexture s) as [old |] eqn:Hm.
  - unfold bind, lift, modify. cbn [fst snd log feedMaskTexture
                                     with_feedMaskTexture emit].
    split; [reflexivity|]. split; [reflexivity|]. split; [| discriminate].
    intros old' _. eexists; split; [reflexivity|]. split; [reflexivity|].
    unfold mask_ok; simpl; auto.
  - cbn [fst snd log feedMaskTexture emit].
    split; [reflexivity|]. split; [reflexivity|]. split; [discriminate|].
    intros _; exact Hm.
Qed.

Lemma updateFeedMask_normalizes_witness :
  reachable Demo.checked_regl Demo.masked3 /\
  Z.of_nat (length [1; 1]%Q) <> size_of Demo.masked3 * size_of Demo.masked3 /\
  snd (updateFeedMask Demo.checked_regl [1; 1]%Q Demo.masked3) = Ok tt.
Proof.
  assert (H : Z.of_nat (length [1; 1]%Q)
              <> size_of Demo.masked3 * size_of Demo.masked3)
    by (vm_compute; discriminate).
  split; [exact masked3_reachable|]. split; [exact H|].
  exact (proj1 (proj2 (proj2
    (updateFeedMask_normalizes Demo.checked_regl Demo.masked3 [1; 1]%Q
       masked3_reachable H)))).
Defined.

(** C6: whatever the field, [updateFeedMask] leaves the two simulation
    buffers and their roles as they were. *)
Theorem updateFeedMask_keeps_buffers (regl : Backend) (s : Session)
    (newFeedMask : list Q) :
  buffer_textures (fst (updateFeedMask regl newFeedMask s)) = buffer_textures s
  /\ currentOutputIn (fst (updateFeedMask regl newFeedMask s))
     = currentOutputIn s.
Proof.
  unfold updateFeedMask, bind. rewrite normalize_mask_spec. cbv zeta.
  destruct (Z.of_nat (length newFeedMask) =? size_of s * size_of s);
    unfold install_mask; cbn [feedMaskTexture emit params];
    destruct (feedMaskTexture s) as [old |]; try (split; reflexivity);
    unfold bind, lift, modify;
    destruct (texture regl _ _ _ _ _) as [t | e]; split; reflexivity.
Qed.

(** C10: in a session without a mask texture, [updateFeedMask] installs
    nothing: it returns normally, the session still has no mask texture,
    the value bound to the [feed_mask] uniform of later steps is the one it
    was, and nothing but the log (the warning) can differ. *)
Theorem updateFeedMask_without_texture (regl : Backend) (s : Session)
    (newFeedMask : list Q) :
  feedMaskTexture s = None ->
  let s' := fst (updateFeedMask regl newFeedMask s) in
  snd (updateFeedMask regl newFeedMask s) = Ok tt /\
  feedMaskTexture s' = None /\
  feed_mask_uniform s' = feed_mask_uniform s /\
  (forall u, step_command s' u = step_command s u) /\
  (s' = s \/
   s' = emit (ConsoleWarn (size_of s * size_of s)
                (Z.of_nat (length newFeedMask))) s).
Proof.
  intros Hnone s'. unfold s', updateFeedMask, bind.
  rewrite normalize_mask_spec. cbv zeta.
  destruct (Z.of_nat (length newFeedMask) =? size_of s * size_of s);
    unfold install_mask, step_command, feed_mask_uniform;
    cbn [feedMaskTexture emit params]; rewrite Hnone;
    cbn [fst snd feedMaskTexture emit params]; rewrite ?Hnone;
    repeat split; auto.
Qed.

Lemma updateFeedMask_without_texture_witness :
  feedMaskTexture Demo.unmasked3 = None /\
  feedMaskTexture
    (fst (updateFeedMask Demo.checked_regl Demo.mask3 Demo.unmasked3)) = None.
Proof.
  assert (H : feedMaskTexture Demo.unmasked3 = None) by reflexivity.
  split; [exact H|].
  exact (proj1 (proj2
    (updateFeedMask_without_texture Demo.checked_regl Demo.unmasked3
       Demo.mask3 H))).
Defined.

(** ** The frame callback *)

(** C7: when the canvas or the document is marked hidden the frame
    callback returns at once: no parameter source call, no stencil pass,
    no draw; the session is exactly the one it was. *)
Theorem hidden_frame_is_skipped (regl : Backend) (context : Context)
    (s : Session) :
  dataset_visible context = Some "hidden"%string \/
  visibilityState context = "hidden"%string ->
  frame regl context s = (s, Ok tt).
Proof.
  intros H. unfold frame.
  assert (Hh : hidden context = true).
  { unfold hidden. destruct H as [-> | ->].
    - reflexivity.
    - rewrite String.eqb_refl. apply orb_true_r. }
  rewrite Hh. reflexivity.
Qed.

Lemma hidden_frame_is_skipped_witness :
  dataset_visible Demo.hidden_frame = Some "hidden"%string /\
  frame Demo.checked_regl Demo.hidden_frame Demo.masked3
  = (Demo.masked3, Ok tt).
Proof.
  split; [reflexivity|].
  apply hidden_frame_is_skipped. left. reflexivity.
Defined.

(** ** Running without a mask *)

(** With no mask texture the [feed_mask] sampler is given the plain object
    [{ min: 0, max: 0 }], which is not a texture: the step command throws
    before anything is drawn. *)
Lemma run_without_mask (regl : Backend) (s : Session) (u : Uniforms.t) :
  well_formed regl s -> feedMaskTexture s = None ->
  run (step_command s u) s = (s, Throw (InvalidUniform "feed_mask")).
Proof.
  intros Hwf Hnone. rewrite (run_spec regl _ s Hwf).
  unfold step_command, feed_mask_uniform. rewrite Hnone. reflexivity.
Qed.

Lemma iteration_without_mask (regl : Backend) (s : Session) (t : Z) :
  well_formed regl s -> feedMaskTexture s = None ->
  Uniforms.reset (uniforms s t) = false ->
  iteration regl t s
  = (emit (CallUniforms t) s, Throw (InvalidUniform "feed_mask")).
Proof.
  intros Hwf Hnone Hreset. unfold iteration.
  unfold bind at 1. unfold bind at 1. rewrite Hreset. unfold ret.
  apply run_without_mask with (regl := regl).
  - apply wf_emit; [exact Hwf | discriminate].
  - exact Hnone.
Qed.

(** C3, on the 4 x 4 session constructed without a mask: the first step
    of a visible frame throws, so no stencil pass is performed and no local
    feed rate is ever computed; the buffers are left as they were. *)
Theorem frame_without_mask_throws :
  frame Demo.checked_regl Demo.visible_frame Demo.unmasked4
  = (emit (CallUniforms 1) Demo.unmasked4, Throw (InvalidUniform "feed_mask")).
Proof.
  unfold frame. change (hidden Demo.visible_frame) with false. cbv iota.
  change (Z.to_nat (DiagramParam.iterations_per_tick (params Demo.unmasked4)))
    with 20%nat.
  cbn [repeat_times]. unfold bind at 1. unfold bind at 1.
  rewrite (iteration_without_mask Demo.checked_regl).
  - reflexivity.
  - apply reachable_well_formed. exact unmasked4_reachable.
  - reflexivity.
  - reflexivity.
Qed.

(** ** One stencil step *)

Section StencilStep.
Variable regl : Backend.
Local Open Scope Q_scope.

Lemma buffer_centre (n : Z) (t : Texture) (i j : Z) :
  buffer_ok n t -> (0 <= i < n)%Z -> (0 <= j < n)%Z ->
  eq4 (texture2D t (v_uv n n i j)) (texel t i j).
Proof.
  intros (Hw & Hh & Hf & Hr & _) Hi Hj.
  pose proof (texture2D_linear_centre t (v_uv n n i j) i j Hf) as H.
  rewrite Hw, Hh, Hr in H. unfold wrap_coord in H.
  rewrite !Z.mod_small in H by lia. apply H.
  - rewrite v_uv_x by lia. ring.
  - rewrite v_uv_y by lia. ring.
Qed.

Lemma mask_centre (n : Z) (m : Texture) (i j : Z) :
  mask_ok n m -> (0 <= i < n)%Z -> (0 <= j < n)%Z ->
  texture2D m (v_uv n n i j) = texel m i j.
Proof.
  intros (Hw & Hh & Hf & Hr) Hi Hj.
  pose proof (texture2D_nearest_centre m (v_uv n n i j) i j Hf) as H.
  rewrite Hw, Hh, Hr in H. unfold wrap_coord in H.
  rewrite !Z.max_r, !Z.min_r in H by lia. apply H.
  - apply v_uv_x; lia.
  - apply v_uv_y; lia.
Qed.

(** The texel a returning step leaves at (i, j) of the buffer it drew
    into is the fragment program evaluated at the centre of that pixel. *)
Lemma run_writes (fn : UniformValue -> Command) (frag : vec2 -> vec4)
    (s : Session) (i j : Z) :
  well_formed regl s ->
  fn (UTexture (read_buffer s)) = Ok frag ->
  (0 <= i < size_of s)%Z -> (0 <= j < size_of s)%Z ->
  snd (run fn s) = Ok tt /\
  currentOutputIn (fst (run fn s)) = (1 - currentOutputIn s)%Z /\
  texel (buffer (fst (run fn s)) (1 - currentOutputIn s)) i j
  = frag (v_uv (size_of s) (size_of s) i j).
Proof.
  intros Hwf Hfn Hi Hj. rewrite (run_spec regl fn s Hwf), Hfn.
  cbn [fst snd currentOutputIn with_currentOutputIn emit with_buffer_textures].
  split; [reflexivity|]. split; [reflexivity|].
  pose proof Hwf as (_ & Hc & (b0 & b1 & Hb & _) & _).
  destruct (wf_index regl s _ Hwf (other_index _ Hc))
    as [_ (Hw & Hh & _)].
  fold (write_buffer s) in Hw, Hh.
  unfold buffer at 1.
  cbn [buffer_textures with_currentOutputIn emit with_buffer_textures].
  rewrite Hb, (update_two _ _ _ _ (other_index _ Hc)).
  assert (Hidx : forall t', index (if (1 - currentOutputIn s =? 0)%Z
                                   then [t'; b1] else [b0; t'])
                              (1 - currentOutputIn s) = Some t').
  { intros t'. destruct Hc as [-> | ->]; reflexivity. }
  rewrite Hidx. unfold texel. cbn [width texels]. rewrite Hw, Hh.
  apply render_nth; assumption.
Qed.

Lemma step_command_masked (s : Session) (u : Uniforms.t)
    (rd mask : Texture) :
  feedMaskTexture s = Some mask ->
  step_command s u (UTexture rd)
  = Ok (karlsims_main rd (Uniforms.diffusion_step u)
          (Uniforms.diffusion_rate u) (inject_Z (size_of s)) 1.0
          (Uniforms.feed u) (Uniforms.kill u) mask).
Proof.
  intros Hm. unfold step_command, feed_mask_uniform. rewrite Hm. reflexivity.
Qed.

End StencilStep.





(** ** Seeding *)

Section Seeding.
Variable regl : Backend.
Local Open Scope Q_scope.

Lemma buffer_after_update (s : Session) (k k' : Z) (t' : Texture) :
  well_formed regl s -> (k = 0 \/ k = 1)%Z -> (k' = 0 \/ k' = 1)%Z ->
  buffer (with_buffer_textures
            (update (buffer_textures s) (Z.to_nat k) t') s) k'
  = if (k' =? k)%Z then t' else buffer s k'.
Proof.
  intros (_ & _ & (b0 & b1 & Hb & _) & _) Hk Hk'. unfold buffer.
  cbn [buffer_textures with_buffer_textures]. rewrite Hb.
  destruct Hk as [-> | ->], Hk' as [-> | ->]; reflexivity.
Qed.

Lemma reset_blends (s : Session) (i j : Z) (px : Pixel) :
  well_formed regl s ->
  canvas_width (source_bitmap s) = size_of s ->
  canvas_height (source_bitmap s) = size_of s ->
  (0 <= i < size_of s)%Z -> (0 <= j < size_of s)%Z ->
  nth_error (pixels (source_bitmap s)) (Z.to_nat (j * size_of s + i))
  = Some px ->
  snd (reset regl s) = Ok tt /\
  currentOutputIn (fst (reset regl s)) = currentOutputIn s /\
  buffer (fst (reset regl s)) (1 - currentOutputIn s) = write_buffer s /\
  texel (read_buffer (fst (reset regl s))) i j
  = mix4 (texture2D (write_buffer s)
            (v_uv (size_of s) (size_of s) i j))
         (texel_of_pixel px) (inject_Z (alpha px) / 255).
Proof.
  intros Hwf Hcw Hch Hi Hj Hpx.
  pose proof Hwf as (Hs & Hc & _).
  unfold reset, texture_of_canvas, texture. rewrite Hcw, Hch, Hs.
  cbv beta iota delta [bind lift].
  rewrite (wf_buffer_texture regl s _ Hwf (other_index _ Hc)).
  fold (write_buffer s). unfold paint_from_bitmap, sampler, bindR.
  destruct (wf_index regl s _ Hwf Hc) as [Hidx (Hw & Hh & _)].
  rewrite (draw_into_ok _ _ _ _ _ _ Hidx).
  cbn [fst snd]. unfold read_buffer.
  cbn [currentOutputIn emit with_buffer_textures].
  split; [reflexivity|]. split; [reflexivity|].
  assert (Hemit : forall e s0 k, buffer (emit e s0) k = buffer s0 k)
    by reflexivity.
  rewrite !Hemit, !(buffer_after_update s _ _ _ Hwf Hc)
    by (auto using other_index).
  rewrite Z.eqb_refl.
  replace (1 - currentOutputIn s =? currentOutputIn s)%Z with false
    by (symmetry; apply Z.eqb_neq; lia).
  split; [reflexivity|].
  unfold texel at 1. cbn [width texels]. rewrite Hw, Hh.
  rewrite render_nth by assumption.
  set (src := {| width := size_of s; height := size_of s; filter := nearest;
                 wrap := wrap_clamp;
                 texels := map texel_of_pixel (pixels (source_bitmap s)) |}).
  assert (Hsrc : texture2D src (v_uv (size_of s) (size_of s) i j)
                 = texel_of_pixel px).
  { rewrite (mask_centre (size_of s) src i j) by
      (try assumption; unfold mask_ok; simpl; auto).
    unfold texel, src; cbn [width texels].
    apply nth_error_nth. apply map_nth_error. exact Hpx. }
  rewrite Hsrc. reflexivity.
Qed.

End Seeding.

(** C2, as the code has it: where the seed bitmap is fully opaque, a
    [reset()] that finds the canvas at the simulation size returns and
    leaves in the read buffer the colour of the bitmap, whatever the
    buffers held: channel A is the red channel over 255 and channel B is
    the green channel over 255. *)
Theorem reset_paints_seed_colour (regl : Backend) (s : Session) (i j : Z)
    (px : Pixel) :
  reachable regl s ->
  canvas_width (source_bitmap s) = size_of s ->
  canvas_height (source_bitmap s) = size_of s ->
  0 <= i < size_of s -> 0 <= j < size_of s ->
  nth_error (pixels (source_bitmap s)) (Z.to_nat (j * size_of s + i))
  = Some px ->
  alpha px = 255 ->
  let s' := fst (reset regl s) in
  snd (reset regl s) = Ok tt /\
  currentOutputIn s' = currentOutputIn s /\
  (vx (texel (read_buffer s') i j) == inject_Z (red px) / 255)%Q /\
  (vy (texel (read_buffer s') i j) == inject_Z (green px) / 255)%Q.
Proof.
  intros Hr Hcw Hch Hi Hj Hpx Ha s'.
  pose proof (reset_blends regl s i j px (reachable_well_formed regl s Hr)
                Hcw Hch Hi Hj Hpx) as (Hok & Hcur & _ & Htexel).
  split; [exact Hok|]. split; [exact Hcur|].
  unfold s'. rewrite Htexel, Ha.
  destruct (mix4_weight_1
              (texture2D (write_buffer s) (v_uv (size_of s) (size_of s) i j))
              (texel_of_pixel px) (inject_Z 255 / 255))
    as (Hx & Hy & _); [reflexivity|].
  split; [exact Hx | exact Hy].
Qed.

Lemma reset_paints_seed_colour_witness :
  reachable Demo.checked_regl Demo.masked3 /\
  alpha (RGBA 63 63 63 255) = 255 /\
  (vy (texel (read_buffer (fst (reset Demo.checked_regl Demo.masked3))) 1 1)
   == inject_Z 63 / 255)%Q.
Proof.
  assert (Hi : 0 <= 1 < size_of Demo.masked3)
    by (vm_compute; intuition discriminate).
  assert (Hpx : nth_error (pixels (source_bitmap Demo.masked3))
                  (Z.to_nat (1 * size_of Demo.masked3 + 1))
                = Some (RGBA 63 63 63 255)) by reflexivity.
  split; [exact masked3_reachable|]. split; [reflexivity|].
  exact (proj2 (proj2 (proj2
    (reset_paints_seed_colour Demo.checked_regl Demo.masked3 1 1
       (RGBA 63 63 63 255) masked3_reachable eq_refl eq_refl Hi Hi Hpx
       eq_refl)))).
Defined.

(** C2, counterexample: the seed field of [masked3] is 1.0 at cell (0, 0);
    after [reset()] channel B of that cell is 1, not 0. *)
Lemma reset_channel_B_not_zero :
  reachable Demo.checked_regl Demo.masked3 /\
  nth_error Demo.seed3 0 = Some 1%Q /\
  snd (reset Demo.checked_regl Demo.masked3) = Ok tt /\
  ~ (vy (texel (read_buffer (fst (reset Demo.checked_regl Demo.masked3))) 0 0)
     == 0)%Q.
Proof.
  split; [exact masked3_reachable|]. split; [reflexivity|].
  split; [vm_compute; reflexivity|].
  vm_compute. discriminate.
Qed.

(** ** Toroidal addressing *)

Section WrapAround.
Variable regl : Backend.
Local Open Scope Q_scope.

(** Bilinear sampling of a buffer at the centre of the texel with
    (unwrapped) coordinates (a, b) returns the texel they wrap to. *)
Lemma sample_wraps (n : Z) (t : Texture) (uv : vec2) (a b : Z) :
  buffer_ok n t ->
  x2 uv * inject_Z n - (1 # 2) == inject_Z a ->
  y2 uv * inject_Z n - (1 # 2) == inject_Z b ->
  eq4 (texture2D t uv) (texel t (a mod n) (b mod n)).
Proof.
  intros (Hw & Hh & Hf & Hr & _) Hx Hy.
  pose proof (texture2D_linear_centre t uv a b Hf) as H.
  rewrite Hw, Hh, Hr in H. apply H; assumption.
Qed.

Ltac unit_offset Hn Hds :=
  cbn [x2 y2 add2 sub2 v_uv]; try rewrite Hds;
  unfold Z.sub; rewrite ?inject_Z_plus, ?inject_Z_opp;
  change (inject_Z 1) with 1; change (inject_Z 0) with 0;
  field; apply inject_Z_nonzero; exact Hn.

(** With a unit diffusion step the weighted neighbour sum at (i, j) is
    taken over the eight cells around (i, j) on the torus. *)
Lemma diffusion_unit_step (n : Z) (t : Texture) (i j : Z) (ds : Q) :
  buffer_ok n t -> (0 < n)%Z -> ds == 1 ->
  let W := texel t ((i - 1) mod n) ((j + 0) mod n) in
  let E := texel t ((i + 1) mod n) ((j + 0) mod n) in
  let S := texel t ((i + 0) mod n) ((j - 1) mod n) in
  let N := texel t ((i + 0) mod n) ((j + 1) mod n) in
  let SW := texel t ((i - 1) mod n) ((j - 1) mod n) in
  let SE := texel t ((i + 1) mod n) ((j - 1) mod n) in
  let NW := texel t ((i - 1) mod n) ((j + 1) mod n) in
  let NE := texel t ((i + 1) mod n) ((j + 1) mod n) in
  eq2 (diffusion t (v_uv n n i j) (ds / inject_Z n))
      (Vec2 (0.2 * (vx W + vx E + vx S + vx N)
             + 0.05 * (vx SW + vx SE + vx NW + vx NE))
            (0.2 * (vy W + vy E + vy S + vy N)
             + 0.05 * (vy SW + vy SE + vy NW + vy NE))).
Proof.
  intros Hok Hn Hds. cbv zeta.
  unfold diffusion, weight_cardinal, weight_diagonal. cbv zeta.
  set (pos := v_uv n n i j).
  set (dx := Vec2 (ds / inject_Z n) 0).
  set (dy := Vec2 0 (ds / inject_Z n)).
  assert (HW := sample_wraps n t (pos - dx)%v2 (i - 1) (j + 0) Hok).
  assert (HE := sample_wraps n t (pos + dx)%v2 (i + 1) (j + 0) Hok).
  assert (HS := sample_wraps n t (pos - dy)%v2 (i + 0) (j - 1) Hok).
  assert (HN := sample_wraps n t (pos + dy)%v2 (i + 0) (j + 1) Hok).
  assert (HSW := sample_wraps n t (pos - dx - dy)%v2 (i - 1) (j - 1) Hok).
  assert (HSE := sample_wraps n t (pos + dx - dy)%v2 (i + 1) (j - 1) Hok).
  assert (HNW := sample_wraps n t (pos - dx + dy)%v2 (i - 1) (j + 1) Hok).
  assert (HNE := sample_wraps n t (pos + dx + dy)%v2 (i + 1) (j + 1) Hok).
  destruct HW as (HWx & HWy & _);
    [subst pos dx dy; unit_offset Hn Hds | subst pos dx dy; unit_offset Hn Hds |].
  destruct HE as (HEx & HEy & _);
    [subst pos dx dy; unit_offset Hn Hds | subst pos dx dy; unit_offset Hn Hds |].
  destruct HS as (HSx & HSy & _);
    [subst pos dx dy; unit_offset Hn Hds | subst pos dx dy; unit_offset Hn Hds |].
  destruct HN as (HNx & HNy & _);
    [subst pos dx dy; unit_offset Hn Hds | subst pos dx dy; unit_offset Hn Hds |].
  destruct HSW as (HSWx & HSWy & _);
    [subst pos dx dy; unit_offset Hn Hds | subst pos dx dy; unit_offset Hn Hds |].
  destruct HSE as (HSEx & HSEy & _);
    [subst pos dx dy; unit_offset Hn Hds | subst pos dx dy; unit_offset Hn Hds |].
  destruct HNW as (HNWx & HNWy & _);
    [subst pos dx dy; unit_offset Hn Hds | subst pos dx dy; unit_offset Hn Hds |].
  destruct HNE as (HNEx & HNEy & _);
    [subst pos dx dy; unit_offset Hn Hds | subst pos dx dy; unit_offset Hn Hds |].
  unfold eq2. cbn [x2 y2 xy add2 scale2].
  rewrite HWx, HEx, HSx, HNx, HSWx, HSEx, HNWx, HNEx.
  rewrite HWy, HEy, HSy, HNy, HSWy, HSEy, HNWy, HNEy.
  split; reflexivity.
Qed.

(** The value a unit-step stencil pass computes at (i, j), in terms of
    the texels of the buffer it samples. *)
Lemma stencil_unit_step_A (n : Z) (t m : Texture) (i j : Z)
    (ds dr dt feed kill : Q) :
  buffer_ok n t -> mask_ok n m ->
  (0 <= i < n)%Z -> (0 <= j < n)%Z -> ds == 1 ->
  let A := vx (texel t i j) in
  let B := vy (texel t i j) in
  let W := texel t ((i - 1) mod n) ((j + 0) mod n) in
  let E := texel t ((i + 1) mod n) ((j + 0) mod n) in
  let S := texel t ((i + 0) mod n) ((j - 1) mod n) in
  let N := texel t ((i + 0) mod n) ((j + 1) mod n) in
  let SW := texel t ((i - 1) mod n) ((j - 1) mod n) in
  let SE := texel t ((i + 1) mod n) ((j - 1) mod n) in
  let NW := texel t ((i - 1) mod n) ((j + 1) mod n) in
  let NE := texel t ((i + 1) mod n) ((j + 1) mod n) in
  vx (karlsims_main t ds dr (inject_Z n) dt feed kill m (v_uv n n i j))
  == A + dt * (dr * (0.2 * (vx W + vx E + vx S + vx N)
                     + 0.05 * (vx SW + vx SE + vx NW + vx NE) - A)
               - A * B * B + feed * vx (texel m i j) * (1 - A)).
Proof.
  intros Hok Hm Hi Hj Hds. cbv zeta.
  assert (Hn : (0 < n)%Z) by lia.
  destruct (diffusion_unit_step n t i j ds Hok Hn Hds) as [Hdx _].
  destruct (buffer_centre n t i j Hok Hi Hj) as (Hcx & Hcy & _).
  unfold karlsims_main. cbv zeta.
  rewrite (mask_centre n m i j Hm Hi Hj).
  cbn [x2 y2 vx xy add2 sub2 scale2] in *.
  rewrite Hdx, Hcx, Hcy. ring.
Qed.

Lemma length_update {A : Type} (l : list A) (k : nat) (v : A) :
  length (update l k v) = length l.
Proof.
  revert k; induction l as [| h l IH]; intros [| k]; simpl; auto.
Qed.

Lemma nth_update {A : Type} (l : list A) (k k' : nat) (v d : A) :
  (k < length l)%nat ->
  nth k' (update l k v) d = if (k' =? k)%nat then v else nth k' l d.
Proof.
  revert k k'; induction l as [| h l IH]; intros k k' Hk; simpl in Hk;
    [lia|].
  destruct k as [| k], k' as [| k']; simpl; auto.
  apply IH. lia.
Qed.

(** Replacing one texel of the read buffer: the session stays well
    formed, keeps its mask and its roles, and its read buffer differs
    from the former one at that texel only. *)
Lemma poke_spec (s : Session) (y : Z) (v : vec4) :
  well_formed regl s -> (0 <= y < size_of s)%Z ->
  well_formed regl (poke s 0 y v) /\
  feedMaskTexture (poke s 0 y v) = feedMaskTexture s /\
  currentOutputIn (poke s 0 y v) = currentOutputIn s /\
  size_of (poke s 0 y v) = size_of s /\
  (forall u, step_command (poke s 0 y v) u = step_command s u) /\
  texel (read_buffer (poke s 0 y v)) 0 y = v /\
  (forall a b, (0 <= a < size_of s)%Z -> (0 <= b < size_of s)%Z ->
     (a, b) <> (0, y)%Z ->
     texel (read_buffer (poke s 0 y v)) a b = texel (read_buffer s) a b).
Proof.
  intros Hwf Hy. pose proof Hwf as (Hs & Hc & Hb & Hm & Ha).
  destruct (wf_index regl s _ Hwf Hc) as [_ Hrd].
  fold (read_buffer s) in Hrd.
  pose proof Hrd as (Hw & Hh & Hf & Hr & Hl).
  set (n := size_of s) in *.
  set (t' := {| width := width (read_buffer s);
                height := height (read_buffer s);
                filter := filter (read_buffer s);
                wrap := wrap (read_buffer s);
                texels := update (texels (read_buffer s))
                            (Z.to_nat (y * width (read_buffer s) + 0)) v |}).
  assert (Hok' : buffer_ok n t').
  { unfold buffer_ok, t'; cbn [width height filter wrap texels].
    rewrite length_update. auto. }
  assert (Hread : read_buffer (poke s 0 y v) = t').
  { unfold read_buffer, poke. fold t'.
    cbn [currentOutputIn with_buffer_textures].
    rewrite (buffer_after_update regl s _ _ _ Hwf Hc Hc), Z.eqb_refl.
    reflexivity. }
  assert (Hk0 : (Z.to_nat (y * n + 0) < length (texels (read_buffer s)))%nat).
  { rewrite Hl. apply Z2Nat.inj_lt; nia. }
  split; [| split; [reflexivity | split; [reflexivity | split;
           [reflexivity | split; [reflexivity | split]]]]].
  - unfold poke. fold t'.
    destruct (buffers_after_update regl s _ t' Hwf Hc Hok') as (c0 & c1 & Hu).
    unfold well_formed, size_of in *.
    cbn [params currentOutputIn buffer_textures feedMaskTexture log
         with_buffer_textures].
    split; [exact Hs|]. split; [exact Hc|]. split; [eauto|].
    split; [exact Hm | exact Ha].
  - rewrite Hread. unfold texel, t'. cbn [width texels]. rewrite Hw.
    rewrite nth_update by exact Hk0. rewrite Nat.eqb_refl. reflexivity.
  - intros a b Ha' Hb' Hne. rewrite Hread. unfold texel, t'.
    cbn [width texels]. rewrite Hw.
    rewrite nth_update by exact Hk0.
    replace (Z.to_nat (b * n + a) =? Z.to_nat (y * n + 0))%nat with false;
      [reflexivity|].
    symmetry. apply Nat.eqb_neq. intros Heq.
    apply Z2Nat.inj in Heq; [| nia | nia].
    apply Hne. assert (b = y) by nia. subst b. f_equal. lia.
Qed.

End WrapAround.

Lemma torus_next (n y : Z) :
  2 <= n -> 0 <= y < n -> 0 <= (y + 1) mod n < n /\ (y + 1) mod n <> y.
Proof.
  intros Hn Hy. split; [apply Z.mod_pos_bound; lia|].
  destruct (Z.eq_dec y (n - 1)) as [-> | Hne].
  - replace (n - 1 + 1) with n by lia. rewrite Z_mod_same_full. lia.
  - rewrite Z.mod_small by lia. lia.
Qed.

Lemma torus_previous (n y : Z) :
  2 <= n -> 0 <= y < n -> 0 <= (y - 1) mod n < n /\ (y - 1) mod n <> y.
Proof.
  intros Hn Hy. split; [apply Z.mod_pos_bound; lia|].
  destruct (Z.eq_dec y 0) as [-> | Hne].
  - replace (0 - 1) with (n - 1 + (-1) * n) by lia.
    rewrite Z_mod_plus_full, Z.mod_small by lia. lia.
  - rewrite Z.mod_small by lia. lia.
Qed.



Section MainFacts.
Local Open Scope Q_scope.

Lemma clamp01_range (value : Q) : 0 <= Main.clamp01 value <= 1.
Proof.
  unfold Main.clamp01.
  destruct (Qle_bool 1 value) eqn:H1.
  - change (Qle_bool 1 0) with false. cbv iota. split; discriminate.
  - destruct (Qle_bool value 0) eqn:H0.
    + split; discriminate.
    + assert (~ 1 <= value) by (rewrite <- Qle_bool_iff; congruence).
      assert (~ value <= 0) by (rewrite <- Qle_bool_iff; congruence).
      lra.
Qed.

(** The seed painter writes the same byte in the three colour channels:
    the clamped seed value scaled to 0..255 and rounded down. *)
Lemma gray_channels (value : Q) :
  red (Main.gray value) = Qfloor (255 * Main.clamp01 value) /\
  green (Main.gray value) = red (Main.gray value) /\
  alpha (Main.gray value) = 255%Z /\
  (0 <= red (Main.gray value) <= 255)%Z.
Proof.
  split; [reflexivity|]. split; [reflexivity|]. split; [reflexivity|].
  cbn [red Main.gray]. destruct (clamp01_range value) as [H0 H1].
  revert H0 H1. generalize (Main.clamp01 value) as c. intros c H0 H1.
  assert (Hlo : (Qfloor (inject_Z 0) <= Qfloor (255 * c))%Z)
    by (apply Qfloor_resp_le; change (inject_Z 0) with 0; lra).
  assert (Hhi : (Qfloor (255 * c) <= Qfloor (inject_Z 255))%Z)
    by (apply Qfloor_resp_le; change (inject_Z 255) with 255; lra).
  rewrite Qfloor_Z in Hlo, Hhi. split; assumption.
Qed.

End MainFacts.

(** * Further properties of the simulator *)

Section ResetFacts.
Variable regl : Backend.
Local Open Scope Q_scope.

Lemma mix4_eq4 (u u' v : vec4) (a : Q) :
  eq4 u u' -> eq4 (mix4 u v a) (mix4 u' v a).
Proof.
  unfold eq4, mix4, mix; cbn [vx vy vz vw].
  intros (A1 & A2 & A3 & A4).
  rewrite A1, A2, A3, A4. repeat split; reflexivity.
Qed.

Lemma reset_log (s : Session) :
  well_formed regl s -> snd (reset regl s) = Ok tt ->
  log (fst (reset regl s))
  = RenderPass PaintPass [(1 - currentOutputIn s)%Z] (Some (currentOutputIn s))
      :: log s /\
  feedMaskTexture (fst (reset regl s)) = feedMaskTexture s /\
  source_bitmap (fst (reset regl s)) = source_bitmap s /\
  params (fst (reset regl s)) = params s /\
  uniforms (fst (reset regl s)) = uniforms s.
Proof.
  intros Hwf. pose proof Hwf as (_ & Hc & _).
  unfold reset. cbv beta iota delta [bind lift].
  destruct (texture_of_canvas regl (source_bitmap s)) as [src | e];
    [| discriminate].
  rewrite (wf_buffer_texture regl s _ Hwf (other_index _ Hc)).
  unfold paint_from_bitmap, sampler, bindR.
  destruct (wf_index regl s _ Hwf Hc) as [Hidx _].
  rewrite (draw_into_ok _ _ _ _ _ _ Hidx). intros _.
  cbn [fst log emit with_buffer_textures feedMaskTexture source_bitmap params
       uniforms].
  repeat split; reflexivity.
Qed.

End ResetFacts.

(** X1: the blend rule of [reset()].  At every cell the read buffer
    receives mix(other, seed, alpha): the texel of the other buffer of
    the pair blended with the colour of the seed bitmap, weighted by the
    bitmap's alpha.  The roles are not swapped, the other buffer is not
    modified, and one paint pass is logged. *)
Theorem reset_blend_rule (regl : Backend) (s : Session) (i j : Z)
    (px : Pixel) :
  reachable regl s ->
  canvas_width (source_bitmap s) = size_of s ->
  canvas_height (source_bitmap s) = size_of s ->
  0 <= i < size_of s -> 0 <= j < size_of s ->
  nth_error (pixels (source_bitmap s)) (Z.to_nat (j * size_of s + i))
  = Some px ->
  let s' := fst (reset regl s) in
  snd (reset regl s) = Ok tt /\
  currentOutputIn s' = currentOutputIn s /\
  buffer s' (1 - currentOutputIn s) = write_buffer s /\
  log s' = RenderPass PaintPass [1 - currentOutputIn s]
             (Some (currentOutputIn s)) :: log s /\
  eq4 (texel (read_buffer s') i j)
      (mix4 (texel (write_buffer s) i j) (texel_of_pixel px)
            (inject_Z (alpha px) / 255)).
Proof.
  intros Hr Hcw Hch Hi Hj Hpx s'.
  pose proof (reachable_well_formed regl s Hr) as Hwf.
  pose proof Hwf as (_ & Hc & _).
  destruct (reset_blends regl s i j px Hwf Hcw Hch Hi Hj Hpx)
    as (Hok & Hcur & Hother & Htexel).
  destruct (reset_log regl s Hwf Hok) as (Hlog & _).
  split; [exact Hok|]. split; [exact Hcur|]. split; [exact Hother|].
  split; [exact Hlog|].
  unfold s'. rewrite Htexel. apply mix4_eq4.
  apply buffer_centre; try assumption.
  destruct (wf_index regl s _ Hwf (other_index _ Hc)) as [_ H]. exact H.
Qed.

Lemma reset_blend_rule_witness :
  reachable Demo.checked_regl Demo.masked3 /\
  eq4 (texel (read_buffer (fst (reset Demo.checked_regl Demo.masked3))) 2 0)
      (mix4 (texel (write_buffer Demo.masked3) 2 0)
            (texel_of_pixel (RGBA 127 127 127 255))
            (inject_Z (alpha (RGBA 127 127 127 255)) / 255)).
Proof.
  assert (H0 : 0 <= 0 < size_of Demo.masked3)
    by (vm_compute; intuition discriminate).
  assert (H2 : 0 <= 2 < size_of Demo.masked3)
    by (vm_compute; intuition discriminate).
  assert (Hpx : nth_error (pixels (source_bitmap Demo.masked3))
                  (Z.to_nat (0 * size_of Demo.masked3 + 2))
                = Some (RGBA 127 127 127 255)) by reflexivity.
  split; [exact masked3_reachable|].
  exact (proj2 (proj2 (proj2 (proj2
    (reset_blend_rule Demo.checked_regl Demo.masked3 2 0
       (RGBA 127 127 127 255) masked3_reachable eq_refl eq_refl H2 H0
       Hpx))))).
Defined.

(** X2: [reloadInitialBitmap()] returns normally and changes nothing but
    the seed canvas: buffers, roles, mask and log are as before.  A
    [reset()] after it paints the newly painted canvas: where that canvas
    is opaque the read buffer takes its colour. *)
Theorem reload_then_reset_paints_new_seed (regl : Backend) (s : Session)
    (i j : Z) (px : Pixel) :
  reachable regl s ->
  let painted :=
    DiagramParam.initial_bitmap (params s)
      (black_canvas (size_of s) (size_of s)) in
  let s1 := fst (reloadInitialBitmap s) in
  let s2 := fst (reset regl s1) in
  canvas_width painted = size_of s ->
  canvas_height painted = size_of s ->
  0 <= i < size_of s -> 0 <= j < size_of s ->
  nth_error (pixels painted) (Z.to_nat (j * size_of s + i)) = Some px ->
  alpha px = 255 ->
  snd (reloadInitialBitmap s) = Ok tt /\
  buffer_textures s1 = buffer_textures s /\
  currentOutputIn s1 = currentOutputIn s /\
  feedMaskTexture s1 = feedMaskTexture s /\
  log s1 = log s /\
  source_bitmap s1 = painted /\
  snd (reset regl s1) = Ok tt /\
  (vx (texel (read_buffer s2) i j) == inject_Z (red px) / 255)%Q /\
  (vy (texel (read_buffer s2) i j) == inject_Z (green px) / 255)%Q.
Proof.
  intros Hr painted s1 s2 Hcw Hch Hi Hj Hpx Ha.
  pose proof (reachable_well_formed regl s Hr) as Hwf.
  pose proof (wf_reloadInitialBitmap regl s Hwf) as Hwf1. fold s1 in Hwf1.
  do 6 (split; [reflexivity|]).
  destruct (reset_blends regl s1 i j px Hwf1 Hcw Hch Hi Hj Hpx)
    as (Hok & _ & _ & Htexel).
  split; [exact Hok|]. unfold s2. rewrite Htexel, Ha.
  destruct (mix4_weight_1
              (texture2D (write_buffer s1)
                 (v_uv (size_of s1) (size_of s1) i j))
              (texel_of_pixel px) (inject_Z 255 / 255))
    as (Hx & Hy & _); [reflexivity|].
  split; [exact Hx | exact Hy].
Qed.

Lemma reload_then_reset_paints_new_seed_witness :
  reachable Demo.checked_regl Demo.masked3 /\
  alpha (RGBA 63 63 63 255) = 255 /\
  (vx (texel (read_buffer
                (fst (reset Demo.checked_regl
                        (fst (reloadInitialBitmap Demo.masked3))))) 1 1)
   == inject_Z 63 / 255)%Q.
Proof.
  assert (Hi : 0 <= 1 < size_of Demo.masked3)
    by (vm_compute; intuition discriminate).
  assert (Hpx : nth_error
                  (pixels (DiagramParam.initial_bitmap (params Demo.masked3)
                             (black_canvas (size_of Demo.masked3)
                                           (size_of Demo.masked3))))
                  (Z.to_nat (1 * size_of Demo.masked3 + 1))
                = Some (RGBA 63 63 63 255)) by reflexivity.
  split; [exact masked3_reachable|]. split; [reflexivity|].
  exact (proj1 (proj2 (proj2 (proj2 (proj2 (proj2 (proj2 (proj2
    (reload_then_reset_paints_new_seed Demo.checked_regl Demo.masked3 1 1
       (RGBA 63 63 63 255) masked3_reachable eq_refl eq_refl Hi Hi Hpx
       eq_refl))))))))).
Defined.

(** ** A visible frame tick *)

Section FrameFacts.
Variable regl : Backend.
Import Trace.

(** One iteration of the frame loop on a session with a mask, when the
    parameters carry no reset: the parameter source is called, one step
    is run, the roles are swapped. *)
Lemma iteration_masked (s : Session) (t : Z) (mask : Texture) :
  well_formed regl s -> feedMaskTexture s = Some mask ->
  Uniforms.reset (uniforms s t) = false ->
  let s' := fst (iteration regl t s) in
  snd (iteration regl t s) = Ok tt /\
  well_formed regl s' /\
  currentOutputIn s' = 1 - currentOutputIn s /\
  log s' = RenderPass StencilPass [currentOutputIn s]
             (Some (1 - currentOutputIn s)) :: CallUniforms t :: log s /\
  feedMaskTexture s' = Some mask /\
  params s' = params s /\ uniforms s' = uniforms s.
Proof.
  intros Hwf Hm Hreset s'.
  assert (Hwf' : well_formed regl s')
    by (apply wf_iteration; exact Hwf).
  assert (Hwf1 : well_formed regl (emit (CallUniforms t) s))
    by (apply wf_emit; [exact Hwf | discriminate]).
  assert (Heq : iteration regl t s
                = run (step_command (emit (CallUniforms t) s) (uniforms s t))
                      (emit (CallUniforms t) s)).
  { unfold iteration. unfold bind at 1. unfold bind at 1.
    rewrite Hreset. reflexivity. }
  rewrite (run_spec regl _ _ Hwf1) in Heq.
  rewrite (step_command_masked _ _ _ mask) in Heq by exact Hm.
  revert Hwf'. unfold s'. rewrite Heq.
  cbn [fst snd currentOutputIn log emit with_currentOutputIn
       with_buffer_textures feedMaskTexture params uniforms].
  intros Hwf'.
  split; [reflexivity|]. split; [exact Hwf'|]. split; [reflexivity|].
  split; [reflexivity|]. split; [exact Hm|]. split; reflexivity.
Qed.

Lemma steps_masked (n : nat) (t : Z) (mask : Texture) :
  forall s,
  well_formed regl s -> feedMaskTexture s = Some mask ->
  Uniforms.reset (uniforms s t) = false ->
  let s' := fst (repeat_times n (iteration regl t) s) in
  snd (repeat_times n (iteration regl t) s) = Ok tt /\
  well_formed regl s' /\
  currentOutputIn s'
  = (if Nat.even n then currentOutputIn s else 1 - currentOutputIn s) /\
  passes StencilPass (log s') = (passes StencilPass (log s) + n)%nat /\
  calls (log s') = (calls (log s) + n)%nat /\
  passes DrawPass (log s') = passes DrawPass (log s) /\
  passes PaintPass (log s') = passes PaintPass (log s) /\
  feedMaskTexture s' = Some mask.
Proof.
  induction n as [| n IH]; intros s Hwf Hm Hreset.
  - cbn [repeat_times ret fst snd Nat.even].
    rewrite !Nat.add_0_r.
    split; [reflexivity|]. split; [exact Hwf|].
    do 4 (split; [reflexivity|]). split; [reflexivity | exact Hm].
  - cbn [repeat_times]. unfold bind.
    destruct (iteration_masked s t mask Hwf Hm Hreset)
      as (Hok & Hwf1 & Hc1 & Hl1 & Hm1 & Hp1 & Hu1).
    destruct (iteration regl t s) as [s1 r1]. cbn [fst snd] in *. subst r1.
    assert (Hreset1 : Uniforms.reset (uniforms s1 t) = false)
      by (rewrite Hu1; exact Hreset).
    destruct (IH s1 Hwf1 Hm1 Hreset1)
      as (Hok2 & Hwf2 & Hc2 & Hs2 & Hk2 & Hd2 & Hp2 & Hm2).
    split; [exact Hok2|]. split; [exact Hwf2|].
    rewrite Hc2, Hs2, Hk2, Hd2, Hp2, Hc1, Hl1.
    unfold passes, calls. cbn [List.filter is_pass is_call length].
    pose proof Hwf as (_ & Hc & _).
    split; [| split; [lia | split; [lia | split; [reflexivity |
                split; [reflexivity | exact Hm2]]]]].
    rewrite Nat.even_succ, <- Nat.negb_even.
    destruct (Nat.even n); cbn [negb]; lia.
Qed.

End FrameFacts.

(** X3: a visible frame tick on a session with a mask, whose parameters
    carry no reset, returns normally after exactly iterations_per_tick
    stencil passes (none when iterations_per_tick is not positive), as
    many calls of the parameter source, no paint pass, and one final draw
    of the current buffer; the roles end swapped when the number of steps
    is odd. *)
Theorem visible_frame_runs_all_steps (regl : Backend) (context : Context)
    (s : Session) (mask : Texture) :
  reachable regl s ->
  feedMaskTexture s = Some mask ->
  hidden context = false ->
  Uniforms.reset (uniforms s (tick context)) = false ->
  let n := Z.to_nat (DiagramParam.iterations_per_tick (params s)) in
  let s' := fst (frame regl context s) in
  snd (frame regl context s) = Ok tt /\
  Trace.passes StencilPass (log s')
  = (Trace.passes StencilPass (log s) + n)%nat /\
  Trace.calls (log s') = (Trace.calls (log s) + n)%nat /\
  Trace.passes PaintPass (log s') = Trace.passes PaintPass (log s) /\
  Trace.passes DrawPass (log s') = S (Trace.passes DrawPass (log s)) /\
  currentOutputIn s'
  = (if Nat.even n then currentOutputIn s else 1 - currentOutputIn s) /\
  hd_error (log s')
  = Some (RenderPass DrawPass [currentOutputIn s'; 1 - currentOutputIn s']
            None).
Proof.
  intros Hr Hm Hvis Hreset n s'.
  pose proof (reachable_well_formed regl s Hr) as Hwf.
  destruct (steps_masked regl n (tick context) mask s Hwf Hm Hreset)
    as (Hok & Hwf1 & Hc1 & Hs1 & Hk1 & Hd1 & Hp1 & _).
  unfold s', frame. rewrite Hvis. fold n. unfold bind.
  destruct (repeat_times n (iteration regl (tick context)) s) as [s1 r1].
  cbn [fst snd] in *. subst r1.
  pose proof Hwf1 as (_ & Hc & _).
  unfold draw.
  rewrite (wf_buffer_texture regl s1 _ Hwf1 Hc),
          (wf_buffer_texture regl s1 _ Hwf1 (other_index _ Hc)).
  cbv beta iota delta [bind lift modify sampler].
  cbn [fst snd log emit currentOutputIn].
  unfold Trace.passes, Trace.calls in *.
  cbn [List.filter Trace.is_pass Trace.is_call length].
  split; [reflexivity|]. split; [exact Hs1|]. split; [exact Hk1|].
  split; [exact Hp1|]. split; [f_equal; exact Hd1|].
  split; [exact Hc1 | reflexivity].
Qed.

Lemma visible_frame_runs_all_steps_witness :
  reachable Demo.checked_regl Demo.masked3 /\
  hidden Demo.visible_frame = false /\
  snd (frame Demo.checked_regl Demo.visible_frame Demo.masked3) = Ok tt /\
  Trace.passes StencilPass
    (log (fst (frame Demo.checked_regl Demo.visible_frame Demo.masked3)))
  = (Trace.passes StencilPass (log Demo.masked3)
     + Z.to_nat (DiagramParam.iterations_per_tick (params Demo.masked3)))%nat.
Proof.
  assert (Hm : feedMaskTexture Demo.masked3 = Some Demo.mask3_texture)
    by reflexivity.
  assert (Hv : hidden Demo.visible_frame = false) by reflexivity.
  assert (Hreset : Uniforms.reset
                     (uniforms Demo.masked3 (tick Demo.visible_frame))
                   = false) by reflexivity.
  pose proof (visible_frame_runs_all_steps Demo.checked_regl
                Demo.visible_frame Demo.masked3 Demo.mask3_texture
                masked3_reachable Hm Hv Hreset) as (Hok & Hs & _).
  split; [exact masked3_reachable|]. split; [exact Hv|].
  split; [exact Hok | exact Hs].
Defined.

(** X4: in a reachable session without a mask texture, every visible
    frame tick with at least one iteration (and no reset in its
    parameters) throws on its first step: the parameter source has been
    called once, no pass of any kind is performed and the buffers are
    untouched. *)
Theorem maskless_visible_frame_throws (regl : Backend)
    (context : Context) (s : Session) :
  reachable regl s ->
  feedMaskTexture s = None ->
  hidden context = false ->
  0 < DiagramParam.iterations_per_tick (params s) ->
  Uniforms.reset (uniforms s (tick context)) = false ->
  frame regl context s
  = (emit (CallUniforms (tick context)) s,
     Throw (InvalidUniform "feed_mask")).
Proof.
  intros Hr Hnone Hvis Hn Hreset.
  pose proof (reachable_well_formed regl s Hr) as Hwf.
  unfold frame. rewrite Hvis.
  destruct (Z.to_nat (DiagramParam.iterations_per_tick (params s)))
    as [| n] eqn:En; [lia|].
  cbn [repeat_times]. unfold bind at 1. unfold bind at 1.
  rewrite (iteration_without_mask regl s _ Hwf Hnone Hreset). reflexivity.
Qed.

Lemma maskless_visible_frame_throws_witness :
  reachable Demo.checked_regl Demo.unmasked3 /\
  feedMaskTexture Demo.unmasked3 = None /\
  snd (frame Demo.checked_regl Demo.visible_frame Demo.unmasked3)
  = Throw (InvalidUniform "feed_mask").
Proof.
  assert (Hnone : feedMaskTexture Demo.unmasked3 = None) by reflexivity.
  assert (Hn : 0 < DiagramParam.iterations_per_tick (params Demo.unmasked3))
    by (vm_compute; reflexivity).
  split; [exact unmasked3_reachable|]. split; [exact Hnone|].
  rewrite (maskless_visible_frame_throws Demo.checked_regl
             Demo.visible_frame Demo.unmasked3 unmasked3_reachable Hnone
             eq_refl Hn eq_refl).
  reflexivity.
Defined.

(** ** The stencil step on particular fields *)

Section FieldFacts.
Variable regl : Backend.
Local Open Scope Q_scope.

(** Sampling a buffer whose channel is the same in every cell returns
    that value, wherever the sample falls. *)
Lemma texture2D_homogeneous (n : Z) (t : Texture) (channel : vec4 -> Q)
    (c : Q) (uv : vec2) :
  channel = vx \/ channel = vy ->
  buffer_ok n t -> (0 < n)%Z ->
  (forall a b, (0 <= a < n)%Z -> (0 <= b < n)%Z ->
               channel (texel t a b) == c) ->
  channel (texture2D t uv) == c.
Proof.
  intros Hch (Hw & Hh & Hf & Hr & _) Hn Hall.
  unfold texture2D. rewrite Hf, Hr, Hw, Hh. cbv zeta. unfold wrap_coord.
  set (i0 := Qfloor (x2 uv * inject_Z n - (1 # 2))).
  set (j0 := Qfloor (y2 uv * inject_Z n - (1 # 2))).
  pose proof (Hall (i0 mod n) (j0 mod n))%Z as H00.
  pose proof (Hall ((i0 + 1) mod n) (j0 mod n))%Z as H10.
  pose proof (Hall (i0 mod n) ((j0 + 1) mod n))%Z as H01.
  pose proof (Hall ((i0 + 1) mod n) ((j0 + 1) mod n))%Z as H11.
  assert (Hb : forall z, (0 <= z mod n < n)%Z)
    by (intros z; apply Z.mod_pos_bound; exact Hn).
  specialize (H00 (Hb _) (Hb _)). specialize (H10 (Hb _) (Hb _)).
  specialize (H01 (Hb _) (Hb _)). specialize (H11 (Hb _) (Hb _)).
  destruct Hch as [-> | ->]; unfold mix4, mix; cbn [vx vy];
    rewrite H00, H10, H01, H11; ring.
Qed.

Lemma diffusion_homogeneous (n : Z) (t : Texture) (a0 b0 : Q) (pos : vec2)
    (step : Q) :
  buffer_ok n t -> (0 < n)%Z ->
  (forall a b, (0 <= a < n)%Z -> (0 <= b < n)%Z ->
               vx (texel t a b) == a0 /\ vy (texel t a b) == b0) ->
  eq2 (diffusion t pos step) (Vec2 a0 b0).
Proof.
  intros Hok Hn Hall.
  assert (Hx : forall uv, vx (texture2D t uv) == a0).
  { intros uv. apply (texture2D_homogeneous n t vx); auto.
    intros a b Ha Hb. apply (Hall a b Ha Hb). }
  assert (Hy : forall uv, vy (texture2D t uv) == b0).
  { intros uv. apply (texture2D_homogeneous n t vy); auto.
    intros a b Ha Hb. apply (Hall a b Ha Hb). }
  unfold diffusion, weight_cardinal, weight_diagonal, eq2. cbv zeta.
  cbn [x2 y2 xy add2 scale2].
  rewrite !Hx, !Hy. split; ring.
Qed.

End FieldFacts.



Lemma black3_reachable : reachable Demo.checked_regl Demo.black3.
Proof.
  apply session_of_made.
  destruct (makeReactionDiffusionDiagram _ _ _) as [s | e] eqn:E;
    [eexists; reflexivity | exfalso].
  vm_compute in E. discriminate E.
Qed.

Lemma black3_is_zero (a b : Z) :
  0 <= a < size_of Demo.black3 -> 0 <= b < size_of Demo.black3 ->
  (vx (texel (read_buffer Demo.black3) a b) == 0)%Q /\
  (vy (texel (read_buffer Demo.black3) a b) == 0)%Q.
Proof.
  change (size_of Demo.black3) with 3. intros Ha Hb.
  assert (Ha' : a = 0 \/ a = 1 \/ a = 2) by lia.
  assert (Hb' : b = 0 \/ b = 1 \/ b = 2) by lia.
  destruct Ha' as [-> | [-> | ->]], Hb' as [-> | [-> | ->]];
    vm_compute; split; reflexivity.
Qed.



(** ** Replacing the mask *)

Section MaskFacts.
Variable regl : Backend.

Lemma nth_normalized (field : list Q) (n k : nat) :
  (k < n)%nat ->
  nth k (firstn n field ++ repeat 0%Q (n - length field)) 0%Q
  = nth k field 0%Q.
Proof.
  intros Hk. destruct (Nat.lt_ge_cases k (length field)) as [Hlt | Hge].
  - rewrite app_nth1 by (rewrite length_firstn; lia).
    revert k n Hk Hlt. induction field as [| x field IH];
      intros [| k] [| n] Hk Hlt; simpl in *; try lia; auto.
    apply IH; lia.
  - rewrite (nth_overflow field) by exact Hge.
    rewrite app_nth2 by (rewrite length_firstn; lia).
    apply nth_repeat.
Qed.

End MaskFacts.

(** X8: on a session that has a mask texture, [updateFeedMask(field)]
    returns normally whatever the length of the field, and afterwards the
    mask value of every cell (i, j) is field[j * size + i], or 0 when the
    field is too short to have that element.  A field of length
    size * size is installed as it is and nothing is logged. *)
Theorem updateFeedMask_sets_cell_values (regl : Backend) (s : Session)
    (old : Texture) (newFeedMask : list Q) (i j : Z) :
  reachable regl s ->
  feedMaskTexture s = Some old ->
  0 <= i < size_of s -> 0 <= j < size_of s ->
  let s' := fst (updateFeedMask regl newFeedMask s) in
  snd (updateFeedMask regl newFeedMask s) = Ok tt /\
  exists t,
    feedMaskTexture s' = Some t /\ mask_ok (size_of s) t /\
    vx (texel t i j) = nth (Z.to_nat (j * size_of s + i)) newFeedMask 0%Q /\
    (Z.of_nat (length newFeedMask) = size_of s * size_of s ->
     texels t = map luminance newFeedMask /\ log s' = log s).
Proof.
  intros Hr Hm Hi Hj s'.
  pose proof (reachable_well_formed regl s Hr) as (Hs & _).
  assert (Hk : (Z.to_nat (j * size_of s + i)
                < Z.to_nat (size_of s * size_of s))%nat)
    by (apply Z2Nat.inj_lt; nia).
  unfold s', updateFeedMask, bind. rewrite normalize_mask_spec. cbv zeta.
  destruct (Z.eqb_spec (Z.of_nat (length newFeedMask))
                       (size_of s * size_of s)) as [Hlen | Hlen];
    unfold install_mask, texture; cbn [feedMaskTexture params emit];
    unfold size_of in *; rewrite Hm, Hs;
    cbv beta iota delta [bind lift modify];
    cbn [fst snd feedMaskTexture with_feedMaskTexture log emit];
    (split; [reflexivity|]); eexists; (split; [reflexivity|]);
    (split; [unfold mask_ok; cbn [width height filter wrap]; auto|]).
  - split.
    + unfold texel. cbn [width texels].
      rewrite nth_indep with (d' := luminance 0%Q)
        by (rewrite length_map; lia).
      rewrite map_nth. reflexivity.
    + intros _. split; reflexivity.
  - split; [| intros E; contradiction].
    unfold texel. cbn [width texels].
    rewrite nth_indep with (d' := luminance 0%Q)
      by (rewrite length_map, normalized_length; exact Hk).
    rewrite map_nth. cbn [vx luminance].
    apply nth_normalized. exact Hk.
Qed.

Lemma updateFeedMask_sets_cell_values_witness :
  reachable Demo.checked_regl Demo.masked3 /\
  feedMaskTexture Demo.masked3 = Some Demo.mask3_texture /\
  snd (updateFeedMask Demo.checked_regl [0.25; 0.5]%Q Demo.masked3) = Ok tt.
Proof.
  assert (Hm : feedMaskTexture Demo.masked3 = Some Demo.mask3_texture)
    by reflexivity.
  assert (Hi : 0 <= 1 < size_of Demo.masked3)
    by (vm_compute; intuition discriminate).
  split; [exact masked3_reachable|]. split; [exact Hm|].
  exact (proj1 (updateFeedMask_sets_cell_values Demo.checked_regl
                  Demo.masked3 Demo.mask3_texture [0.25; 0.5]%Q 1 1
                  masked3_reachable Hm Hi Hi)).
Defined.

(** * Properties of the image preprocessing (main.ts) *)

Section ImageFacts.
Import Image Stores.
Local Open Scope Q_scope.

Lemma in_for_range (lo hi v : Z) :
  In v (for_range lo hi) <-> (lo <= v < hi)%Z.
Proof.
  unfold for_range. rewrite in_map_iff. split.
  - intros (k & <- & Hk). apply in_seq in Hk. lia.
  - intros Hv. exists (Z.to_nat (v - lo)). split; [lia|].
    apply in_seq. lia.
Qed.

Lemma length_store (a : list Q) (k : Z) (v : Q) :
  length (store a k v) = length a.
Proof. unfold store. destruct (k <? 0)%Z; [reflexivity|]. apply length_update. Qed.

Lemma element_store (a : list Q) (k k' : Z) (v : Q) :
  (0 <= k' < Z.of_nat (length a))%Z ->
  element (store a k' v) k = if (k =? k')%Z then v else element a k.
Proof.
  intros Hk'. unfold element, store.
  replace (k' <? 0)%Z with false by (symmetry; apply Z.ltb_ge; lia).
  destruct (Z.ltb_spec k 0) as [Hneg | Hpos].
  - replace (k =? k')%Z with false by (symmetry; apply Z.eqb_neq; lia).
    reflexivity.
  - rewrite nth_update by lia.
    destruct (Z.eqb_spec k k') as [-> | Hne].
    + rewrite Nat.eqb_refl. reflexivity.
    + replace (Z.to_nat k =? Z.to_nat k')%nat with false; [reflexivity|].
      symmetry. apply Nat.eqb_neq. intros E. apply Hne.
      apply Z2Nat.inj in E; lia.
Qed.

Lemma Forall_update {A : Type} (P : A -> Prop) (a : list A) (k : nat) (v : A) :
  Forall P a -> P v -> Forall P (update a k v).
Proof.
  intros Ha Hv. revert k. induction Ha as [| x a Hx Ha IH]; intros [| k];
    simpl; auto.
Qed.

Lemma Forall_store (P : Q -> Prop) (a : list Q) (k : Z) (v : Q) :
  Forall P a -> P v -> Forall P (store a k v).
Proof.
  intros Ha Hv. unfold store. destruct (k <? 0)%Z; [exact Ha|].
  apply Forall_update; assumption.
Qed.

Lemma loops_are_stores (data : list Q) (size : Z) (ys xs : list Z)
    (output : list Q) :
  fold_left (fun out y => fold_left (enhance_cell data size y) xs out)
            ys output
  = apply_stores (stores_of data size ys xs) output.
Proof.
  unfold apply_stores, stores_of. revert output.
  induction ys as [| y ys IH]; intros output; [reflexivity|].
  cbn [fold_left flat_map]. rewrite fold_left_app, <- IH. f_equal.
  clear IH. revert output. induction xs as [| x xs IHx]; intros output;
    [reflexivity|].
  cbn [fold_left map]. rewrite <- IHx. reflexivity.
Qed.

Lemma length_apply_stores (writes : list (Z * Q)) (output : list Q) :
  length (apply_stores writes output) = length output.
Proof.
  unfold apply_stores. revert output.
  induction writes as [| w writes IH]; intros output; [reflexivity|].
  cbn [fold_left]. rewrite IH. apply length_store.
Qed.

Lemma Forall_apply_stores (P : Q -> Prop) (writes : list (Z * Q))
    (output : list Q) :
  Forall P output -> Forall (fun w => P (snd w)) writes ->
  Forall P (apply_stores writes output).
Proof.
  unfold apply_stores. intros Ho Hw. revert output Ho.
  induction Hw as [| w writes Hv Hw IH]; intros output Ho; [exact Ho|].
  cbn [fold_left]. apply IH. apply Forall_store; assumption.
Qed.

Lemma element_apply_stores_other (writes : list (Z * Q)) (output : list Q)
    (k : Z) :
  ~ In k (map fst writes) ->
  Forall (fun w => (0 <= fst w < Z.of_nat (length output))%Z) writes ->
  element (apply_stores writes output) k = element output k.
Proof.
  unfold apply_stores. revert output.
  induction writes as [| w writes IH]; intros output Hk Hw; [reflexivity|].
  cbn [fold_left]. inversion Hw as [| ? ? Hw1 Hw2]; subst.
  rewrite IH.
  - rewrite element_store by exact Hw1.
    destruct (Z.eqb_spec k (fst w)) as [E | _]; [| reflexivity].
    exfalso. apply Hk. left. symmetry. exact E.
  - intros Hin. apply Hk. right. exact Hin.
  - rewrite length_store. exact Hw2.
Qed.

Lemma element_apply_stores_written (writes : list (Z * Q)) (output : list Q)
    (k : Z) (v : Q) :
  In (k, v) writes ->
  (forall v', In (k, v') writes -> v' = v) ->
  Forall (fun w => (0 <= fst w < Z.of_nat (length output))%Z) writes ->
  element (apply_stores writes output) k = v.
Proof.
  unfold apply_stores. revert output.
  induction writes as [| w writes IH]; intros output Hin Huniq Hw;
    [destruct Hin|].
  cbn [fold_left]. inversion Hw as [| ? ? Hw1 Hw2]; subst.
  destruct (in_dec Z.eq_dec k (map fst writes)) as [Hlater | Hnot].
  - apply in_map_iff in Hlater. destruct Hlater as ([k' v'] & Ek & Hin').
    cbn [fst] in Ek. subst k'.
    assert (v' = v) by (apply Huniq; right; exact Hin'). subst v'.
    apply IH; [exact Hin' | | rewrite length_store; exact Hw2].
    intros v'' H''. apply Huniq. right. exact H''.
  - fold (apply_stores writes (store output (fst w) (snd w))).
    rewrite element_apply_stores_other;
      [| exact Hnot | rewrite length_store; exact Hw2].
    destruct Hin as [-> | Hin].
    + cbn [fst snd]. rewrite element_store by exact Hw1.
      rewrite Z.eqb_refl. reflexivity.
    + exfalso. apply Hnot. apply in_map_iff. exists (k, v). auto.
Qed.

Lemma in_stores_of (data : list Q) (size : Z) (ys xs : list Z) (k : Z)
    (v : Q) :
  In (k, v) (stores_of data size ys xs) <->
  exists y x, In y ys /\ In x xs /\ k = (y * size + x)%Z /\
              v = Main.clamp01 (element data (y * size + x)
                                + edge_at data size y x).
Proof.
  unfold stores_of. rewrite in_flat_map. split.
  - intros (y & Hy & Hin). apply in_map_iff in Hin.
    destruct Hin as (x & E & Hx). injection E as <- <-.
    exists y, x. auto.
  - intros (y & x & Hy & Hx & -> & ->). exists y. split; [exact Hy|].
    apply in_map_iff. exists x. auto.
Qed.

End ImageFacts.

Section EnhanceEdges.
Import Image Stores.
Local Open Scope Q_scope.

Lemma Qle_bool_compat (a a' b b' : Q) :
  a == a' -> b == b' -> Qle_bool a b = Qle_bool a' b'.
Proof.
  intros Ea Eb.
  destruct (Qle_bool a b) eqn:H, (Qle_bool a' b') eqn:H'; try reflexivity.
  - apply Qle_bool_iff in H. rewrite Ea, Eb in H.
    apply Qle_bool_iff in H. congruence.
  - apply Qle_bool_iff in H'. rewrite <- Ea, <- Eb in H'.
    apply Qle_bool_iff in H'. congruence.
Qed.

Lemma clamp01_compat (v w : Q) : v == w -> Main.clamp01 v == Main.clamp01 w.
Proof.
  intros E. unfold Main.clamp01.
  rewrite (Qle_bool_compat 1 1 v w (Qeq_refl 1) E).
  destruct (Qle_bool 1 w); [reflexivity|].
  rewrite (Qle_bool_compat v w 0 0 E (Qeq_refl 0)).
  destruct (Qle_bool w 0); [reflexivity | exact E].
Qed.

Lemma clamp01_inside (v : Q) : 0 <= v <= 1 -> Main.clamp01 v == v.
Proof.
  intros [H0 H1]. unfold Main.clamp01.
  destruct (Qle_bool 1 v) eqn:E1.
  - apply Qle_bool_iff in E1. change (Qle_bool 1 0) with false. cbv iota. lra.
  - destruct (Qle_bool v 0) eqn:E0; [| reflexivity].
    apply Qle_bool_iff in E0. lra.
Qed.

(** The kernel sum is the five-point Laplacian: the corner weights are
    0. *)
Lemma edge_at_laplacian (data : list Q) (size y x : Z) :
  edge_at data size y x
  == 4 * element data (y * size + x)
     - element data ((y - 1) * size + x)
     - element data ((y + 1) * size + x)
     - element data (y * size + (x - 1))
     - element data (y * size + (x + 1)).
Proof.
  unfold edge_at.
  change (for_range (-1) (1 + 1)) with [-1; 0; 1]%Z.
  cbn [fold_left].
  change (element LAPLACIAN_KERNEL ((-1 + 1) * 3 + (-1 + 1))) with 0.
  change (element LAPLACIAN_KERNEL ((-1 + 1) * 3 + (0 + 1))) with (-1 # 1).
  change (element LAPLACIAN_KERNEL ((-1 + 1) * 3 + (1 + 1))) with 0.
  change (element LAPLACIAN_KERNEL ((0 + 1) * 3 + (-1 + 1))) with (-1 # 1).
  change (element LAPLACIAN_KERNEL ((0 + 1) * 3 + (0 + 1))) with 4.
  change (element LAPLACIAN_KERNEL ((0 + 1) * 3 + (1 + 1))) with (-1 # 1).
  change (element LAPLACIAN_KERNEL ((1 + 1) * 3 + (-1 + 1))) with 0.
  change (element LAPLACIAN_KERNEL ((1 + 1) * 3 + (0 + 1))) with (-1 # 1).
  change (element LAPLACIAN_KERNEL ((1 + 1) * 3 + (1 + 1))) with 0.
  replace ((y + -1) * size + (x + 0))%Z with ((y - 1) * size + x)%Z by ring.
  replace ((y + 0) * size + (x + -1))%Z with (y * size + (x - 1))%Z by ring.
  replace ((y + 0) * size + (x + 0))%Z with (y * size + x)%Z by ring.
  replace ((y + 0) * size + (x + 1))%Z with (y * size + (x + 1))%Z by ring.
  replace ((y + 1) * size + (x + 0))%Z with ((y + 1) * size + x)%Z by ring.
  ring.
Qed.

(** Every array element the loops read lies inside [data]. *)
Lemma enhanceEdges_reads_inside (size y x ky kx : Z) :
  (1 <= y < size - 1)%Z -> (1 <= x < size - 1)%Z ->
  (-1 <= ky <= 1)%Z -> (-1 <= kx <= 1)%Z ->
  (0 <= (y + ky) * size + (x + kx) < size * size)%Z /\
  (0 <= (ky + 1) * 3 + (kx + 1) < 9)%Z.
Proof. intros. split; nia. Qed.

Lemma enhanceEdges_matched (data : list Q) (size : Z) :
  Z.of_nat (length data) = (size * size)%Z ->
  enhanceEdges data size
  = (None,
     apply_stores
       (stores_of data size (for_range 1 (size - 1)) (for_range 1 (size - 1)))
       (repeat 0 (length data))).
Proof.
  intros Hlen. unfold enhanceEdges.
  replace (Z.of_nat (length data) =? size * size)%Z with true
    by (symmetry; apply Z.eqb_eq; exact Hlen).
  cbn [negb]. unfold KERNEL_RADIUS. rewrite loops_are_stores. reflexivity.
Qed.

Lemma stores_inside (data : list Q) (size : Z) :
  Z.of_nat (length data) = (size * size)%Z ->
  Forall (fun w => (0 <= fst w
                    < Z.of_nat (length (repeat 0%Q (length data))))%Z)
    (stores_of data size (for_range 1 (size - 1)) (for_range 1 (size - 1))).
Proof.
  intros Hlen. apply Forall_forall. intros [k v] Hin. cbn [fst].
  apply in_stores_of in Hin. destruct Hin as (y & x & Hy & Hx & -> & _).
  apply in_for_range in Hy, Hx. rewrite repeat_length, Hlen. nia.
Qed.

Lemma element_zeros (n : nat) (k : Z) : element (repeat 0 n) k = 0.
Proof.
  unfold element. destruct (k <? 0)%Z; [reflexivity|].
  destruct (Nat.lt_ge_cases (Z.to_nat k) n) as [H | H].
  - apply nth_repeat_lt. exact H.
  - apply nth_overflow. rewrite repeat_length. exact H.
Qed.

End EnhanceEdges.

(** X9: [enhanceEdges] always returns an array of size * size elements,
    each between 0 and 1.  When the length of [data] is not size * size it
    reports the two numbers on the console and returns all zeros;
    otherwise it reports nothing. *)
Theorem enhanceEdges_shape_and_range (data : list Q) (size : Z) :
  let result := Image.enhanceEdges data size in
  length (snd result) = Z.to_nat (size * size) /\
  Forall (fun v => 0 <= v <= 1)%Q (snd result) /\
  if Z.of_nat (length data) =? size * size
  then fst result = None
  else result = (Some (Z.of_nat (length data), size),
                 repeat 0%Q (Z.to_nat (size * size))).
Proof.
  cbv zeta. destruct (Z.eqb_spec (Z.of_nat (length data)) (size * size))
    as [Hlen | Hlen].
  - rewrite (enhanceEdges_matched data size Hlen). cbn [fst snd].
    split; [| split; [| reflexivity]].
    + rewrite length_apply_stores, repeat_length. lia.
    + apply Forall_apply_stores.
      * apply Forall_forall. intros v Hv. apply repeat_spec in Hv. subst v.
        split; discriminate.
      * apply Forall_forall. intros [k v] Hin. cbn [snd].
        apply in_stores_of in Hin.
        destruct Hin as (y & x & _ & _ & _ & ->). apply clamp01_range.
  - unfold Image.enhanceEdges.
    replace (Z.of_nat (length data) =? size * size) with false
      by (symmetry; apply Z.eqb_neq; exact Hlen).
    cbn [negb fst snd]. split; [apply repeat_length|].
    split; [| reflexivity].
    apply Forall_forall. intros v Hv. apply repeat_spec in Hv. subst v.
    split; discriminate.
Qed.

(** X10: on an image of the right length the border of the result is
    zero: the cells of the first and last row and of the first and last
    column are never written. *)
Theorem enhanceEdges_border_is_zero (data : list Q) (size x y : Z) :
  Z.of_nat (length data) = size * size ->
  0 <= x < size -> 0 <= y < size ->
  x = 0 \/ x = size - 1 \/ y = 0 \/ y = size - 1 ->
  Image.element (snd (Image.enhanceEdges data size)) (y * size + x) = 0%Q.
Proof.
  intros Hlen Hx Hy Hborder.
  rewrite (enhanceEdges_matched data size Hlen). cbn [snd].
  rewrite element_apply_stores_other.
  - apply element_zeros.
  - intros Hin. apply in_map_iff in Hin. destruct Hin as ([k v] & Ek & Hin).
    cbn [fst] in Ek. subst k. apply in_stores_of in Hin.
    destruct Hin as (y' & x' & Hy' & Hx' & E & _).
    apply in_for_range in Hy', Hx'.
    assert (y' = y) by nia. subst y'. assert (x' = x) by lia. subst x'.
    lia.
  - apply stores_inside. exact Hlen.
Qed.

Lemma enhanceEdges_border_is_zero_witness :
  Z.of_nat (length [1; 1; 1; 1; 1; 1; 1; 1; 1]%Q) = 3 * 3 /\
  Image.element
    (snd (Image.enhanceEdges [1; 1; 1; 1; 1; 1; 1; 1; 1]%Q 3)) (2 * 3 + 1)
  = 0%Q.
Proof.
  split; [reflexivity|].
  apply (enhanceEdges_border_is_zero [1; 1; 1; 1; 1; 1; 1; 1; 1]%Q 3 1 2);
    [reflexivity | lia | lia | right; right; right; reflexivity].
Defined.

(** X11: on an image of the right length every interior cell (x, y) of
    the result is the sharpened value clamped to [0, 1]:
      clamp(5 d(x, y) - d(x, y-1) - d(x, y+1) - d(x-1, y) - d(x+1, y)),
    and the five elements read lie inside the image.  Where the image is
    flat around the cell (the four neighbours equal the centre, itself in
    [0, 1]) the result is the centre value unchanged. *)
Theorem enhanceEdges_interior_is_sharpened (data : list Q) (size x y : Z) :
  Z.of_nat (length data) = size * size ->
  1 <= x < size - 1 -> 1 <= y < size - 1 ->
  let d (x' y' : Z) := Image.element data (y' * size + x') in
  let out := Image.element (snd (Image.enhanceEdges data size)) (y * size + x) in
  (out == Main.clamp01 (5 * d x y - d x (y - 1)%Z - d x (y + 1)%Z
                        - d (x - 1)%Z y - d (x + 1)%Z y))%Q /\
  ((0 <= (y - 1) * size + x)%Z /\
   ((y + 1) * size + x < Z.of_nat (length data))%Z) /\
  ((0 <= d x y <= 1)%Q ->
   (d x (y - 1)%Z == d x y)%Q -> (d x (y + 1)%Z == d x y)%Q ->
   (d (x - 1)%Z y == d x y)%Q -> (d (x + 1)%Z y == d x y)%Q ->
   (out == d x y)%Q).
Proof.
  intros Hlen Hx Hy d out.
  assert (Hout : out = Main.clamp01 (d x y + Image.edge_at data size y x)).
  { unfold out. rewrite (enhanceEdges_matched data size Hlen). cbn [snd].
    apply element_apply_stores_written.
    - apply in_stores_of. exists y, x.
      repeat split; try reflexivity; apply in_for_range; lia.
    - intros v' Hin. apply in_stores_of in Hin.
      destruct Hin as (y' & x' & Hy' & Hx' & E & ->).
      apply in_for_range in Hy', Hx'.
      assert (y' = y) by nia. subst y'. assert (x' = x) by lia. subst x'.
      reflexivity.
    - apply stores_inside. exact Hlen. }
  assert (Hsharp : (out == Main.clamp01 (5 * d x y - d x (y - 1)%Z - d x (y + 1)%Z
                                         - d (x - 1)%Z y - d (x + 1)%Z y))%Q).
  { rewrite Hout. apply clamp01_compat. rewrite edge_at_laplacian.
    unfold d. ring. }
  split; [exact Hsharp|]. split; [rewrite Hlen; nia|].
  intros Hrange HN HS HW HE. rewrite Hsharp.
  rewrite <- (clamp01_inside (d x y) Hrange) at 2.
  apply clamp01_compat. rewrite HN, HS, HW, HE. ring.
Qed.

Lemma enhanceEdges_interior_is_sharpened_witness :
  Z.of_nat (length [0; 0; 0; 0; 1; 0; 0; 0; 0]%Q) = 3 * 3 /\
  (Image.element
     (snd (Image.enhanceEdges [0; 0; 0; 0; 1; 0; 0; 0; 0]%Q 3)) (1 * 3 + 1)
   == Main.clamp01
        (5 * Image.element [0; 0; 0; 0; 1; 0; 0; 0; 0]%Q (1 * 3 + 1)
         - Image.element [0; 0; 0; 0; 1; 0; 0; 0; 0]%Q ((1 - 1) * 3 + 1)
         - Image.element [0; 0; 0; 0; 1; 0; 0; 0; 0]%Q ((1 + 1) * 3 + 1)
         - Image.element [0; 0; 0; 0; 1; 0; 0; 0; 0]%Q (1 * 3 + (1 - 1))
         - Image.element [0; 0; 0; 0; 1; 0; 0; 0; 0]%Q (1 * 3 + (1 + 1))))%Q.
Proof.
  assert (Hx : 1 <= 1 < 3 - 1) by lia.
  split; [reflexivity|].
  exact (proj1 (enhanceEdges_interior_is_sharpened
                  [0; 0; 0; 0; 1; 0; 0; 0; 0]%Q 3 1 1 eq_refl Hx Hx)).
Defined.

Section GetImageData.
Import Image.
Local Open Scope Q_scope.

Lemma element_get_image_data (imageData : list Z) (n k : Z) :
  (0 <= k < n * n)%Z ->
  element (get_image_data imageData n) k
  = (RED_WEIGHT * inject_Z (byte imageData (k * 4))
     + GREEN_WEIGHT * inject_Z (byte imageData (k * 4 + 1))
     + BLUE_WEIGHT * inject_Z (byte imageData (k * 4 + 2))) / 255.
Proof.
  intros Hk. unfold element, get_image_data. cbv zeta.
  replace (k <? 0)%Z with false by (symmetry; apply Z.ltb_ge; lia).
  assert (Hlt : (Z.to_nat k < Z.to_nat (n * n))%nat)
    by (apply Z2Nat.inj_lt; lia).
  match goal with
  | |- nth _ (map ?f _) _ = _ =>
      rewrite nth_indep with (d' := f 0%nat)
        by (rewrite length_map, length_seq; exact Hlt);
      rewrite (map_nth f)
  end.
  rewrite seq_nth by exact Hlt. cbn [Nat.add]. rewrite Z2Nat.id by lia.
  reflexivity.
Qed.

Lemma byte_range (imageData : list Z) (k : Z) :
  Forall (fun b => (0 <= b <= 255)%Z) imageData ->
  (0 <= byte imageData k <= 255)%Z.
Proof.
  intros Hall. unfold byte. destruct (k <? 0)%Z; [lia|].
  destruct (Nat.lt_ge_cases (Z.to_nat k) (length imageData)) as [H | H].
  - rewrite Forall_forall in Hall. apply Hall. apply nth_In. exact H.
  - rewrite nth_overflow by exact H. lia.
Qed.

Lemma inject_Z_byte (b : Z) :
  (0 <= b <= 255)%Z -> 0 <= inject_Z b <= 255.
Proof.
  intros [H0 H1]. split.
  - change 0 with (inject_Z 0). rewrite <- Zle_Qle. exact H0.
  - change 255 with (inject_Z 255). rewrite <- Zle_Qle. exact H1.
Qed.

End GetImageData.

(** X12: [get_image_data] returns one value per cell.  Over bytes in
    0..255 the value of cell k is the weighted sum
    0.299 r + 0.587 g + 0.114 b of its colour bytes over 255, lies in
    [0, 1], ignores the alpha byte, and for a gray pixel (r = g = b) is
    r / 255. *)
Theorem get_image_data_luminance (imageData : list Z) (n k : Z) :
  Forall (fun b => 0 <= b <= 255) imageData ->
  0 <= k < n * n ->
  let data := Image.get_image_data imageData n in
  let r := inject_Z (Image.byte imageData (k * 4)) in
  let g := inject_Z (Image.byte imageData (k * 4 + 1)) in
  let b := inject_Z (Image.byte imageData (k * 4 + 2)) in
  length data = Z.to_nat (n * n) /\
  (Image.element data k == (0.299 * r + 0.587 * g + 0.114 * b) / 255)%Q /\
  (0 <= Image.element data k <= 1)%Q /\
  ((r == g)%Q -> (g == b)%Q -> (Image.element data k == r / 255)%Q).
Proof.
  intros Hall Hk data r g b.
  split.
  { unfold data, Image.get_image_data. cbv zeta.
    rewrite length_map, length_seq. reflexivity. }
  unfold data. rewrite (element_get_image_data imageData n k Hk).
  unfold Image.RED_WEIGHT, Image.GREEN_WEIGHT, Image.BLUE_WEIGHT.
  fold r g b.
  pose proof (inject_Z_byte _ (byte_range imageData (k * 4) Hall)) as Hr.
  pose proof (inject_Z_byte _ (byte_range imageData (k * 4 + 1) Hall)) as Hg.
  pose proof (inject_Z_byte _ (byte_range imageData (k * 4 + 2) Hall)) as Hb.
  fold r in Hr. fold g in Hg. fold b in Hb.
  revert Hr Hg Hb. generalize r g b. clear. intros r g b Hr Hg Hb.
  split; [reflexivity|]. split.
  - split.
    + apply Qle_shift_div_l; [reflexivity | lra].
    + apply Qle_shift_div_r; [reflexivity | lra].
  - intros E1 E2. rewrite <- E2, <- E1. field.
Qed.

Lemma get_image_data_luminance_witness :
  Forall (fun b => 0 <= b <= 255) DemoPage.image2 /\
  (Image.element (Image.get_image_data DemoPage.image2 2) 2
   == inject_Z (Image.byte DemoPage.image2 (2 * 4)) / 255)%Q.
Proof.
  assert (Hall : Forall (fun b => 0 <= b <= 255) DemoPage.image2)
    by (repeat constructor; lia).
  assert (Hk : 0 <= 2 < 2 * 2) by lia.
  split; [exact Hall|].
  apply (proj2 (proj2 (proj2
           (get_image_data_luminance DemoPage.image2 2 2 Hall Hk))));
    reflexivity.
Defined.

(** ** The seed painter *)

Section Painter.
Local Open Scope Z_scope.

Lemma painted_pixel (n : Z) (concentrations : list Q) (k : nat) :
  0 < n -> Z.of_nat k < n * n ->
  let c := Main.initial_bitmap n concentrations (black_canvas n n) in
  canvas_width c = n /\ canvas_height c = n /\
  nth_error (pixels c) k
  = Some match nth_error concentrations k with
         | Some value => Main.gray value
         | None => RGBA 0 0 0 0
         end.
Proof.
  intros Hn Hk c. split; [reflexivity|]. split; [reflexivity|].
  unfold c, Main.initial_bitmap, Main.putImageData, black_canvas.
  cbn [pixels canvas_width canvas_height].
  assert (Hlt : (k < Z.to_nat (n * n))%nat) by lia.
  match goal with
  | |- nth_error (map ?f _) _ = _ =>
      rewrite (map_nth_error f k (seq 0 (length (repeat black (Z.to_nat (n * n))))) (d := k))
  end.
  2:{ rewrite repeat_length. rewrite nth_error_nth' with (d := 0%nat)
        by (rewrite length_seq; exact Hlt).
      rewrite seq_nth by exact Hlt. reflexivity. }
  f_equal.
  assert (Hx : 0 <= Z.of_nat k mod n < n) by (apply Z.mod_pos_bound; lia).
  assert (Hy : 0 <= Z.of_nat k / n < n).
  { split; [apply Z.div_pos; lia|]. apply Z.div_lt_upper_bound; lia. }
  replace (Z.of_nat k mod n <? n) with true
    by (symmetry; apply Z.ltb_lt; lia).
  replace (Z.of_nat k / n <? n) with true
    by (symmetry; apply Z.ltb_lt; lia).
  cbn [andb].
  replace (Z.of_nat k / n * n + Z.of_nat k mod n) with (Z.of_nat k)
    by (rewrite (Z.div_mod (Z.of_nat k) n) at 1 by lia; ring).
  rewrite Nat2Z.id. unfold Main.image_data.
  match goal with
  | |- nth _ (map ?f _) ?d = _ =>
      rewrite nth_indep with (d' := f 0%nat)
        by (rewrite length_map, length_seq; exact Hlt);
      rewrite (map_nth f)
  end.
  rewrite seq_nth by exact Hlt. reflexivity.
Qed.

End Painter.

(** ** The seed after construction *)

Section SeedFacts.
Variable regl : Backend.
Local Open Scope Q_scope.

(** The constructor, once the textures are allocated, is the first
    [reset()] on the session with two blank buffers. *)
Lemma make_is_first_reset (p : DiagramParam.t) (u : Z -> Uniforms.t) :
  let n := DiagramParam.size p in
  let blank := {| width := n; height := n; filter := linear;
                  wrap := wrap_repeat;
                  texels := repeat zero4 (Z.to_nat (n * n)) |} in
  let s0 :=
    {| params := p; uniforms := u;
       feedMaskTexture :=
         match DiagramParam.feed_mask p with
         | Some mask =>
             Some {| width := n; height := n; filter := nearest;
                     wrap := wrap_clamp; texels := map luminance mask |}
         | None => None
         end;
       buffer_textures := [blank; blank];
       source_bitmap := DiagramParam.initial_bitmap p (black_canvas n n);
       currentOutputIn := 0; log := [] |} in
  shape_ok regl n n = true ->
  well_formed regl s0 /\
  makeReactionDiffusionDiagram regl p u
  = match reset regl s0 with
    | (s1, Ok _) => Ok s1
    | (_, Throw e) => Throw e
    end.
Proof.
  intros n blank s0 Hn. split.
  - unfold well_formed, size_of, s0.
    cbn [params currentOutputIn buffer_textures feedMaskTexture log
         alternating].
    fold n. split; [exact Hn|]. split; [left; reflexivity|].
    split; [| split; [| exact I]].
    + exists blank, blank. split; [reflexivity|].
      assert (Hb : buffer_ok n blank)
        by (unfold buffer_ok, blank; cbn [width height filter wrap texels];
            rewrite repeat_length; auto 10).
      split; exact Hb.
    + intros m Hm. destruct (DiagramParam.feed_mask p); [| discriminate].
      injection Hm as <-. unfold mask_ok; cbn [width height filter wrap].
      auto.
  - unfold makeReactionDiffusionDiagram, texture. cbv zeta. fold n.
    rewrite Hn. destruct (DiagramParam.feed_mask p); reflexivity.
Qed.

Lemma quantized_below (c : Q) :
  inject_Z (Qfloor (255 * c)) / 255 <= c /\
  c < inject_Z (Qfloor (255 * c)) / 255 + 1 / 255.
Proof.
  pose proof (Qfloor_le (255 * c)) as Hle.
  pose proof (Qlt_floor (255 * c)) as Hlt.
  rewrite inject_Z_plus in Hlt. change (inject_Z 1) with 1 in Hlt.
  revert Hle Hlt. generalize (inject_Z (Qfloor (255 * c))). intros f Hle Hlt.
  split.
  - apply Qle_shift_div_r; [reflexivity | lra].
  - assert (E : f / 255 + 1 / 255 == (f + 1) / 255) by field.
    rewrite E. apply Qlt_shift_div_l; [reflexivity | lra].
Qed.

End SeedFacts.

(** X13: the seed the page gives the simulation.  When the backend
    accepts the grid, the diagram of main.ts is constructed, and at every
    cell that has a seed value v both channels of the read buffer hold the
    same number q = floor(255 * clamp(v)) / 255: channel B starts equal
    to channel A, and q is the clamped seed value rounded down to a
    multiple of 1/255. *)
Theorem seed_after_construction (regl : Backend) (n : Z)
    (concentrations : list Q) (mask : option (list Q))
    (u : Z -> Uniforms.t) (i j : Z) (value : Q) :
  shape_ok regl n n = true ->
  0 <= i < n -> 0 <= j < n ->
  nth_error concentrations (Z.to_nat (j * n + i)) = Some value ->
  let q := (inject_Z (Qfloor (255 * Main.clamp01 value)) / 255)%Q in
  exists s,
    makeReactionDiffusionDiagram regl
      (Main.diagram_params n concentrations mask) u = Ok s /\
    (vx (texel (read_buffer s) i j) == q)%Q /\
    (vy (texel (read_buffer s) i j) == q)%Q /\
    (q <= Main.clamp01 value)%Q /\ (Main.clamp01 value < q + 1 / 255)%Q.
Proof.
  intros Hn Hi Hj Hv q.
  destruct (make_is_first_reset regl
              (Main.diagram_params n concentrations mask) u Hn)
    as [Hwf Hmake].
  cbv zeta in Hwf, Hmake.
  cbn [DiagramParam.size DiagramParam.initial_bitmap DiagramParam.feed_mask
       Main.diagram_params] in Hwf, Hmake.
  set (s0 := {| params := Main.diagram_params n concentrations mask;
                currentOutputIn := 0 |}) in *.
  assert (Hk : Z.of_nat (Z.to_nat (j * n + i)) < n * n) by nia.
  destruct (painted_pixel n concentrations (Z.to_nat (j * n + i))
              ltac:(lia) Hk) as (Hcw & Hch & Hpx).
  rewrite Hv in Hpx.
  destruct (reset_blends regl s0 i j (Main.gray value) Hwf Hcw Hch Hi Hj Hpx)
    as (Hok & _ & _ & Htexel).
  rewrite Hmake. destruct (reset regl s0) as [s1 r]. cbn [fst snd] in *.
  subst r. exists s1. split; [reflexivity|].
  rewrite Htexel.
  destruct (mix4_weight_1
              (texture2D (write_buffer s0) (v_uv (size_of s0) (size_of s0) i j))
              (texel_of_pixel (Main.gray value))
              (inject_Z (alpha (Main.gray value)) / 255))
    as (Hx & Hy & _); [reflexivity|].
  split; [exact Hx|]. split; [exact Hy|].
  apply quantized_below.
Qed.

Lemma seed_after_construction_witness :
  shape_ok Demo.checked_regl 3 3 = true /\
  nth_error Demo.seed3 (Z.to_nat (0 * 3 + 2)) = Some 0.5%Q /\
  exists s,
    makeReactionDiffusionDiagram Demo.checked_regl
      (Main.diagram_params 3 Demo.seed3 (Some Demo.mask3))
      (Main.uniforms 0.03 0.06) = Ok s /\
    (vx (texel (read_buffer s) 2 0)
     == inject_Z (Qfloor (255 * Main.clamp01 0.5)) / 255)%Q.
Proof.
  assert (H2 : 0 <= 2 < 3) by lia.
  assert (H0 : 0 <= 0 < 3) by lia.
  split; [reflexivity|]. split; [reflexivity|].
  destruct (seed_after_construction Demo.checked_regl 3 Demo.seed3
              (Some Demo.mask3) (Main.uniforms 0.03 0.06) 2 0 0.5%Q
              eq_refl H2 H0 eq_refl) as (s & Hs & Hx & _).
  exists s. split; [exact Hs | exact Hx].
Defined.

(** * Properties of the page (main.ts) *)

Section PageFacts.
Variable regl : Backend.
Variable n : Z.

Lemma set_same_length (target source : list Q) :
  length source = length target -> JS.set target source = Ok source.
Proof.
  intros H. unfold JS.set. rewrite H, Nat.ltb_irrefl.
  rewrite skipn_all, app_nil_r. reflexivity.
Qed.

Lemma length_get_image_data (imageData : list Z) :
  Z.of_nat (length (Image.get_image_data imageData n)) = n * n.
Proof.
  unfold Image.get_image_data. cbv zeta.
  rewrite length_map, length_seq. apply Z2Nat.id. nia.
Qed.

Lemma length_enhanceEdges (data : list Q) :
  Z.of_nat (length (snd (Image.enhanceEdges data n))) = n * n.
Proof.
  unfold Image.enhanceEdges.
  destruct (Z.eqb_spec (Z.of_nat (length data)) (n * n)) as [H | H];
    cbn [negb snd].
  - unfold Image.KERNEL_RADIUS. rewrite loops_are_stores.
    rewrite length_apply_stores, repeat_length. exact H.
  - rewrite repeat_length. apply Z2Nat.id. nia.
Qed.

Lemma wf_with_concentrations (concentrations : list Q) (s : Session) :
  well_formed regl s ->
  well_formed regl (App.with_concentrations n concentrations s).
Proof. intros H. exact H. Qed.

(** [updateFeedMask] with a field of the right length on a session that
    has a mask texture: the field is installed, nothing else changes. *)
Lemma updateFeedMask_right_length (s : Session) (field : list Q) :
  well_formed regl s -> feedMaskTexture s <> None ->
  Z.of_nat (length field) = size_of s * size_of s ->
  updateFeedMask regl field s
  = (with_feedMaskTexture
       (Some {| width := size_of s; height := size_of s; filter := nearest;
                wrap := wrap_clamp; texels := map luminance field |}) s,
     Ok tt).
Proof.
  intros (Hs & _) Hm Hlen. unfold updateFeedMask, bind.
  rewrite normalize_mask_spec. cbv zeta.
  replace (Z.of_nat (length field) =? size_of s * size_of s) with true
    by (symmetry; apply Z.eqb_eq; exact Hlen).
  unfold install_mask, texture. unfold size_of in *. rewrite Hs.
  destruct (feedMaskTexture s); [reflexivity | contradiction].
Qed.

End PageFacts.

(** Start-up, step by step. *)
Lemma start_steps (regl : Backend) (n : Z) (imageData : list Z)
    (feed kill : Q) :
  shape_ok regl n n = true -> 0 < n ->
  exists app,
    App.start regl n imageData feed kill = Ok app /\
    App.ready regl n app /\
    App.initialConcentrations app = Image.get_image_data imageData n /\
    App.enhancedEdgeMap app
    = snd (Image.enhanceEdges (Image.get_image_data imageData n) n) /\
    feedMaskTexture (App.diagram1 app)
    = Some {| width := n; height := n; filter := nearest;
              wrap := wrap_clamp;
              texels := map luminance (App.enhancedEdgeMap app) |}.
Proof.
  intros Hn Hpos. unfold App.start. cbv zeta.
  set (conc := Image.get_image_data imageData n).
  set (edges := snd (Image.enhanceEdges conc n)).
  destruct (make_is_first_reset regl
              (Main.diagram_params n conc (Some edges))
              (Main.uniforms feed kill) Hn) as [Hwf0 Hmake].
  cbv zeta in Hwf0, Hmake.
  cbn [DiagramParam.size DiagramParam.initial_bitmap DiagramParam.feed_mask
       Main.diagram_params] in Hwf0, Hmake.
  set (s0 := {| params := Main.diagram_params n conc (Some edges);
                currentOutputIn := 0 |}) in *.
  assert (Hreset : snd (reset regl s0) = Ok tt).
  { unfold reset, texture_of_canvas, texture.
    change (canvas_width (source_bitmap s0)) with n.
    change (canvas_height (source_bitmap s0)) with n. rewrite Hn.
    cbv beta iota delta [bind lift].
    pose proof Hwf0 as (_ & Hc & _).
    rewrite (wf_buffer_texture regl s0 _ Hwf0 (other_index _ Hc)).
    unfold paint_from_bitmap, sampler, bindR.
    destruct (wf_index regl s0 _ Hwf0 Hc) as [Hidx _].
    rewrite (draw_into_ok _ _ _ _ _ _ Hidx). reflexivity. }
  destruct (reset_log regl s0 Hwf0 Hreset) as (_ & Hm & _ & Hp & _).
  pose proof (wf_reset regl s0 Hwf0) as Hwf1.
  rewrite Hmake. destruct (reset regl s0) as [s1 r]. cbn [fst snd] in *.
  subst r. cbn [bindR]. eexists. split; [reflexivity|].
  cbn [App.initialConcentrations App.enhancedEdgeMap App.diagram1].
  split; [| split; [reflexivity | split; [reflexivity | exact Hm]]].
  unfold App.ready.
  cbn [App.initialConcentrations App.enhancedEdgeMap App.diagram1].
  split; [apply length_get_image_data|].
  split; [apply length_enhanceEdges|].
  split; [exact Hwf1|]. unfold size_of. rewrite Hp.
  split; [reflexivity|]. split; [reflexivity|].
  rewrite Hm. discriminate.
Qed.

(** X14: start-up.  When the backend accepts the grid the page starts:
    the concentrations are the luminance of the image, the mask given to
    the diagram is its edge map, and the arrays and the diagram are in
    the state the upload handler relies on. *)
Theorem start_makes_page_ready (regl : Backend) (n : Z) (imageData : list Z)
    (feed kill : Q) :
  shape_ok regl n n = true -> 0 < n ->
  exists app,
    App.start regl n imageData feed kill = Ok app /\
    App.ready regl n app /\
    App.initialConcentrations app = Image.get_image_data imageData n /\
    App.enhancedEdgeMap app
    = snd (Image.enhanceEdges (Image.get_image_data imageData n) n) /\
    feedMaskTexture (App.diagram1 app)
    = Some {| width := n; height := n; filter := nearest;
              wrap := wrap_clamp;
              texels := map luminance (App.enhancedEdgeMap app) |}.
Proof. exact (start_steps regl n imageData feed kill). Qed.

Lemma start_makes_page_ready_witness :
  shape_ok Demo.checked_regl 2 2 = true /\
  exists app,
    App.start Demo.checked_regl 2 DemoPage.image2 0.03 0.06 = Ok app /\
    App.ready Demo.checked_regl 2 app.
Proof.
  assert (Hpos : 0 < 2) by lia.
  split; [reflexivity|].
  destruct (start_makes_page_ready Demo.checked_regl 2 DemoPage.image2
              0.03 0.06 eq_refl Hpos) as (app & Hs & Hr & _).
  exists app. split; [exact Hs | exact Hr].
Defined.

Section UploadSteps.
Variable regl : Backend.
Variable n : Z.

(** The upload handler on a ready page, step by step. *)
Lemma upload_steps (imageData : list Z) (app : App.t) (i j : Z) :
  App.ready regl n app ->
  0 <= i < n -> 0 <= j < n ->
  let conc := Image.get_image_data imageData n in
  let edges := snd (Image.enhanceEdges conc n) in
  let d := App.diagram1 app in
  let q := (inject_Z (Qfloor (255 * Main.clamp01
                                (Image.element conc (j * n + i)))) / 255)%Q in
  exists d4,
    App.upload regl n (Some imageData) app
    = ({| App.initialConcentrations := conc; App.enhancedEdgeMap := edges;
          App.diagram1 := d4 |}, Ok tt) /\
    well_formed regl d4 /\
    params d4 = params (App.with_concentrations n conc d) /\
    feedMaskTexture d4
    = Some {| width := n; height := n; filter := nearest; wrap := wrap_clamp;
              texels := map luminance edges |} /\
    currentOutputIn d4 = currentOutputIn d /\
    log d4 = RenderPass PaintPass [1 - currentOutputIn d]
               (Some (currentOutputIn d)) :: log d /\
    (vx (texel (read_buffer d4) i j) == q)%Q /\
    (vy (texel (read_buffer d4) i j) == q)%Q.
Proof.
  intros (Hlc & Hle & Hwf & Hsize & Hpaint & Hmask) Hi Hj.
  cbv zeta. unfold App.upload.
  set (conc := Image.get_image_data imageData n).
  set (edges := snd (Image.enhanceEdges conc n)).
  assert (Hconc : Z.of_nat (length conc) = n * n)
    by apply length_get_image_data.
  assert (Hedges : Z.of_nat (length edges) = n * n)
    by apply length_enhanceEdges.
  rewrite (set_same_length _ conc) by lia.
  cbn [App.enhancedEdgeMap App.initialConcentrations App.diagram1].
  rewrite (set_same_length _ edges) by lia.
  set (d1 := App.with_concentrations n conc (App.diagram1 app)).
  assert (Hwf1 : well_formed regl d1) by exact Hwf.
  assert (Hsize1 : size_of d1 = n) by exact Hsize.
  assert (Hmask1 : feedMaskTexture d1 <> None) by exact Hmask.
  unfold bind at 1.
  rewrite (updateFeedMask_right_length regl d1 edges Hwf1 Hmask1)
    by (rewrite Hsize1; exact Hedges).
  rewrite Hsize1.
  set (mt := {| width := n; height := n; filter := nearest;
                wrap := wrap_clamp; texels := map luminance edges |}).
  set (d2 := with_feedMaskTexture (Some mt) d1).
  assert (Hwf2 : well_formed regl d2).
  { apply wf_with_mask; [exact Hwf1|]. rewrite Hsize1.
    unfold mask_ok, mt; cbn [width height filter wrap]. auto. }
  unfold bind at 1. unfold reloadInitialBitmap at 1. unfold modify at 1.
  set (d3 := with_source_bitmap _ d2).
  assert (Hwf3 : well_formed regl d3)
    by (apply (wf_reloadInitialBitmap regl d2 Hwf2)).
  assert (Hsize3 : size_of d3 = n) by exact Hsize.
  assert (Hsrc : source_bitmap d3
                 = Main.initial_bitmap n conc (black_canvas n n)).
  { unfold d3. cbn [source_bitmap with_source_bitmap].
    change (DiagramParam.size (params d2)) with (size_of (App.diagram1 app)).
    rewrite Hsize. reflexivity. }
  assert (Hk : Z.of_nat (Z.to_nat (j * n + i)) < n * n) by nia.
  destruct (painted_pixel n conc (Z.to_nat (j * n + i)) ltac:(lia) Hk)
    as (Hcw & Hch & Hpx).
  assert (Hval : nth_error conc (Z.to_nat (j * n + i))
                 = Some (Image.element conc (j * n + i))).
  { unfold Image.element.
    replace (j * n + i <? 0) with false by (symmetry; apply Z.ltb_ge; nia).
    apply nth_error_nth'. lia. }
  rewrite Hval in Hpx. rewrite <- Hsrc in Hcw, Hch, Hpx.
  rewrite <- Hsize3 in Hi, Hj, Hcw, Hch.
  rewrite <- Hsize3 in Hpx at 1.
  destruct (reset_blends regl d3 i j _ Hwf3 Hcw Hch Hi Hj Hpx)
    as (Hok & Hcur & _ & Htexel).
  destruct (reset_log regl d3 Hwf3 Hok) as (Hlog & Hm3 & Hs3 & Hp3 & Hu3).
  pose proof (wf_reset regl d3 Hwf3) as Hwf4.
  destruct (reset regl d3) as [d4 r]. cbn [fst snd] in *. subst r.
  exists d4. split; [reflexivity|]. split; [exact Hwf4|].
  split; [exact Hp3|]. split; [exact Hm3|]. split; [exact Hcur|].
  split; [exact Hlog|].
  rewrite Htexel.
  destruct (mix4_weight_1
              (texture2D (write_buffer d3) (v_uv (size_of d3) (size_of d3) i j))
              (texel_of_pixel (Main.gray (Image.element conc (j * n + i))))
              (inject_Z (alpha (Main.gray (Image.element conc (j * n + i))))
               / 255))
    as (Hx & Hy & _); [reflexivity|].
  split; [exact Hx | exact Hy].
Qed.

End UploadSteps.

(** X15: the upload handler.  On a ready page, uploading an image
    returns normally and leaves the page ready; the concentrations become
    the luminance of the new image, the mask texture holds its edge map,
    the seed canvas is repainted and the read buffer of every seeded cell
    is set to floor(255 * clamp(v)) / 255 in both channels.  No
    simulation step is run, the roles are not swapped, and no warning is
    logged.  With no file selected nothing changes. *)
Theorem upload_installs_new_image (regl : Backend) (n : Z)
    (imageData : list Z) (app : App.t) (i j : Z) :
  App.ready regl n app ->
  0 <= i < n -> 0 <= j < n ->
  let result := App.upload regl n (Some imageData) app in
  let app' := fst result in
  let d := App.diagram1 app in
  let d' := App.diagram1 app' in
  let value := Image.element (Image.get_image_data imageData n) (j * n + i) in
  let q := (inject_Z (Qfloor (255 * Main.clamp01 value)) / 255)%Q in
  snd result = Ok tt /\
  App.ready regl n app' /\
  App.initialConcentrations app' = Image.get_image_data imageData n /\
  App.enhancedEdgeMap app'
  = snd (Image.enhanceEdges (Image.get_image_data imageData n) n) /\
  feedMaskTexture d'
  = Some {| width := n; height := n; filter := nearest; wrap := wrap_clamp;
            texels := map luminance (App.enhancedEdgeMap app') |} /\
  currentOutputIn d' = currentOutputIn d /\
  log d' = RenderPass PaintPass [1 - currentOutputIn d]
             (Some (currentOutputIn d)) :: log d /\
  (vx (texel (read_buffer d') i j) == q)%Q /\
  (vy (texel (read_buffer d') i j) == q)%Q /\
  App.upload regl n None app = (app, Ok tt).
Proof.
  intros Hready Hi Hj. pose proof Hready as (Hlc & Hle & Hwf & Hsize & _).
  cbv zeta.
  destruct (upload_steps regl n imageData app i j Hready Hi Hj)
    as (d4 & Hup & Hwf4 & Hp4 & Hm4 & Hcur & Hlog & Hx & Hy).
  rewrite Hup.
  cbn [fst snd App.initialConcentrations App.enhancedEdgeMap App.diagram1].
  split; [reflexivity|]. split.
  { unfold App.ready.
    cbn [App.initialConcentrations App.enhancedEdgeMap App.diagram1].
    split; [apply length_get_image_data|].
    split; [apply length_enhanceEdges|]. split; [exact Hwf4|].
    unfold size_of. rewrite Hp4.
    split; [exact Hsize|]. split; [reflexivity|].
    rewrite Hm4. discriminate. }
  split; [reflexivity|]. split; [reflexivity|].
  split; [exact Hm4|]. split; [exact Hcur|]. split; [exact Hlog|].
  split; [exact Hx|]. split; [exact Hy | reflexivity].
Qed.

Lemma upload_installs_new_image_witness :
  App.ready Demo.checked_regl 2 DemoPage.page2 /\
  snd (App.upload Demo.checked_regl 2 (Some DemoPage.upload2) DemoPage.page2)
  = Ok tt.
Proof.
  assert (Hready : App.ready Demo.checked_regl 2 DemoPage.page2).
  { unfold DemoPage.page2.
    destruct (start_steps Demo.checked_regl 2 DemoPage.image2 0.03 0.06
                eq_refl ltac:(lia)) as (app & -> & Hr & _).
    exact Hr. }
  assert (Hi : 0 <= 1 < 2) by lia.
  split; [exact Hready|].
  exact (proj1 (upload_installs_new_image Demo.checked_regl 2
                  DemoPage.upload2 DemoPage.page2 1 1 Hready Hi Hi)).
Defined.

(** ** The reset flag of the parameters *)


Lemma resetting3_reachable : reachable Demo.checked_regl Demo.resetting3.
Proof.
  apply session_of_made.
  destruct (makeReactionDiffusionDiagram _ _ _) as [s | e] eqn:E;
    [eexists; reflexivity | exfalso].
  vm_compute in E. discriminate E.
Qed.

